(** * TaxiSimulation: a shallow embedding of the ride-sharing simulation

    The Python sources ([location.py], [rider.py], [driver.py],
    [dispatcher.py], [monitor.py], [event.py], [simulation.py]) are
    embedded as Rocq functions.

    - Python [int]s are [Z]; identifiers are [string]s.
    - A Python name that may hold [None] where an object is expected is an
      [option]; using such a [None] as an object raises [AttributeError].
    - [Driver] and [Rider] instances are mutable objects shared between the
      event queue, the dispatcher and the events themselves.  They live in a
      store indexed by reference; everything that holds "a driver" holds
      its reference, so aliasing is the store's.
    - Methods that mutate or may raise are computations
      [World -> Res A * World]: the world reached is kept even when the
      call raises, as in Python.
    - [print] calls only write the trace and are left out.
    - Python's [/] on two [int]s goes through a double: the quotient is
      rounded to the nearest double, and is too large for one beyond the
      range of doubles, see [Float].
    - [container.py] (the [PriorityQueue] of [simulation.py]) is not among
      the sources; the queue is modelled from the spec, see [PriorityQueue]. *)

From Stdlib Require Import ZArith QArith Bool Lia.
From stdpp Require Import gmap strings list fin_maps functions.

Open Scope Z_scope.

(** ** Exceptions and results *)

Inductive exn : Type :=
| ZeroDivisionError
| OverflowError
| AttributeError
| IndexError.

Inductive Res (A : Type) : Type :=
| Ok (a : A)
| Raise (e : exn).
Arguments Ok {A} a.
Arguments Raise {A} e.

Definition res_bind {A B} (r : Res A) (k : A -> Res B) : Res B :=
  match r with
  | Ok a => k a
  | Raise e => Raise e
  end.

Notation "x <~ c ;; k" := (res_bind c (fun x => k))
  (at level 100, c at next level, right associativity).

(** A name used as an object: [None] has no attributes. *)
Definition attr {A} (o : option A) : Res A :=
  match o with
  | Some a => Ok a
  | None => Raise AttributeError
  end.

(** ** Python's [/] on two [int]s

    [a / b] raises ZeroDivisionError when [b] is 0.  Otherwise it is the
    double (IEEE 754 binary64: 53 bits of mantissa, exponents of the last
    bit from -1074 on) nearest to the exact quotient, a tie going to the
    even mantissa; when that double would be 2^1024 or more the division
    raises OverflowError ("integer division result too large for a
    float").  The two zeros are one value here. *)

Module Float.

(** A finite double, [(m, e)] for [m * 2^e]. *)
Definition t : Type := (Z * Z)%type.

(** [2^e], and 1 for a negative [e]. *)
Definition pow2 (e : Z) : Z := 2 ^ Z.max 0 e.

(** [n / d] to the nearest integer, a half to the even one
    ([0 <= n], [0 < d]). *)
Definition round_half_even (n d : Z) : Z :=
  let q := n / d in
  let r := n mod d in
  if 2 * r <? d then q
  else if d <? 2 * r then q + 1
  else if Z.even q then q else q + 1.

(** [a / b] in units of [2^e] is [numerator a e / denominator b e]. *)
Definition numerator (a e : Z) : Z := a * pow2 (- e).
Definition denominator (b e : Z) : Z := b * pow2 e.

(** The exponent of the last mantissa bit of the double nearest to [a / b]
    ([0 < a], [0 < b]): the one at which the quotient has 53 bits, and not
    below -1074, the exponent of the subnormal doubles. *)
Definition exponent (a b : Z) : Z :=
  let e := Z.log2 a - Z.log2 b - 53 in
  Z.max (if numerator a e / denominator b e <? 2 ^ 53 then e else e + 1)
        (-1074).

Definition nearest (a b : Z) : t :=
  let e := exponent a b in
  (round_half_even (numerator a e) (denominator b e), e).

(** [a / b]; the rounded quotient [m * 2^e] is too large when
    [2^1024 <= m * 2^e]. *)
Definition true_div (a b : Z) : Res t :=
  if b =? 0 then Raise ZeroDivisionError
  else
    let '(m, e) := nearest (Z.abs a) (Z.abs b) in
    if numerator (2 ^ 1024) e <=? denominator m e then Raise OverflowError
    else Ok (Z.sgn a * Z.sgn b * m, e).

(** [int(x)]: toward zero. *)
Definition int (x : t) : Z :=
  let '(m, e) := x in Z.quot (m * pow2 e) (pow2 (- e)).

(** The rational number [x] stands for. *)
Definition to_Q (x : t) : Q :=
  let '(m, e) := x in Qred (Qmake (m * pow2 e) (Z.to_pos (pow2 (- e)))).

End Float.

(** [int(a / b)], as in [get_travel_time]. *)
Definition int_true_div (a b : Z) : Res Z :=
  x <~ Float.true_div a b ;; Ok (Float.int x).

(** [a / n] for an int [a] and a length [n], as in the averages of
    [monitor.py]: the float, as the rational number it stands for. *)
Definition float_true_div (a : Z) (n : nat) : Res Q :=
  x <~ Float.true_div a (Z.of_nat n) ;; Ok (Float.to_Q x).

(** ** location.py *)

Module Location.

Record t : Type := Location { row : Z; column : Z }.

#[global] Instance eq_dec : EqDecision t.
Proof. solve_decision. Defined.

(** [Location.__eq__] against a name that may be [None]. *)
Definition eqb (a b : option t) : bool := bool_decide (a = b).

Definition manhattan_distance (origin destination : t) : Z :=
  Z.abs (row destination - row origin) +
  Z.abs (column destination - column origin).

End Location.

Abbreviation Location := Location.t.
Abbreviation manhattan_distance := Location.manhattan_distance.

(** ** rider.py *)

Module Rider.

Inductive Status : Type := WAITING | CANCELLED | SATISFIED.

#[global] Instance status_eq_dec : EqDecision Status.
Proof. solve_decision. Defined.

Record t : Type := Rider {
  id : string;
  origin : Location;
  destination : Location;
  patience : Z;
  status : Status
}.

#[global] Instance eq_dec : EqDecision t.
Proof. solve_decision. Defined.

(** [Rider.__init__] *)
Definition init (i : string) (o d : Location) (p : Z) : t :=
  {| id := i; origin := o; destination := d; patience := p;
     status := WAITING |}.

(** [Rider.__eq__]: all five fields. *)
Definition eqb (a b : t) : bool :=
  bool_decide (id a = id b) && bool_decide (origin a = origin b) &&
  bool_decide (destination a = destination b) &&
  bool_decide (patience a = patience b) &&
  bool_decide (status a = status b).

Definition set_status (s : Status) (r : t) : t :=
  {| id := id r; origin := origin r; destination := destination r;
     patience := patience r; status := s |}.

End Rider.

Abbreviation WAITING := Rider.WAITING.
Abbreviation CANCELLED := Rider.CANCELLED.
Abbreviation SATISFIED := Rider.SATISFIED.

(** ** driver.py: the object and its methods on one instance *)

Module Driver.

(** [location] is an [option]: [end_drive] and [end_ride] assign the pending
    destination to it, whatever that holds. *)
Record t : Type := Driver {
  id : string;
  location : option Location;
  _speed : Z;
  is_idle : bool;
  _destination : option Location
}.

(** [Driver.__init__] *)
Definition init (identifier : string) (loc : Location) (speed : Z) : t :=
  {| id := identifier; location := Some loc; _speed := speed;
     is_idle := true; _destination := None |}.

(** Attribute assignments [self.location = v], [self.is_idle = v],
    [self._destination = v]. *)
Definition set_location (v : option Location) (self : t) : t :=
  {| id := id self; location := v; _speed := _speed self;
     is_idle := is_idle self; _destination := _destination self |}.

Definition set_is_idle (v : bool) (self : t) : t :=
  {| id := id self; location := location self; _speed := _speed self;
     is_idle := v; _destination := _destination self |}.

Definition set_destination (v : option Location) (self : t) : t :=
  {| id := id self; location := location self; _speed := _speed self;
     is_idle := is_idle self; _destination := v |}.

(** [Driver.__eq__]: id, location and idle flag only. *)
Definition eqb (a b : t) : bool :=
  bool_decide (id a = id b) && Location.eqb (location a) (location b) &&
  bool_decide (is_idle a = is_idle b).

Definition get_travel_time (self : t) (destination : Location) : Res Z :=
  here <~ attr (location self) ;;
  int_true_div (manhattan_distance here destination) (_speed self).

(** Each mutating method returns the instance after the call together with
    what the call returned or raised. *)
Definition start_drive (self : t) (loc : Location) : t * Res Z :=
  let self := set_destination (Some loc) self in
  (self, get_travel_time self loc).

Definition end_drive (self : t) : t * Res unit :=
  let self := set_location (_destination self) self in
  let self := set_destination None self in
  let self := set_is_idle true self in
  (self, Ok tt).

Definition start_ride (self : t) (rider : Rider.t) : t * Res Z :=
  let self := set_is_idle false self in
  let self := set_destination (Some (Rider.destination rider)) self in
  (self, get_travel_time self (Rider.destination rider)).

Definition end_ride (self : t) : t * Res unit :=
  let self := set_location (_destination self) self in
  let self := set_is_idle true self in
  let self := set_destination None self in
  (self, Ok tt).

(** The four operations of the driver's life cycle, and their effect on
    one instance (whatever they return or raise). *)
Inductive op : Type :=
| StartDrive (loc : Location)
| StartRide (rider : Rider.t)
| EndDrive
| EndRide.

Definition step (self : t) (o : op) : t :=
  match o with
  | StartDrive loc => fst (start_drive self loc)
  | StartRide rider => fst (start_ride self rider)
  | EndDrive => fst (end_drive self)
  | EndRide => fst (end_ride self)
  end.

Definition run_ops (self : t) (ops : list op) : t := fold_left step ops self.

End Driver.

(** ** monitor.py *)

Module Monitor.

Inductive Category : Type := RIDER | DRIVER.
Inductive Description : Type := REQUEST | CANCEL | PICKUP | DROPOFF.

#[global] Instance description_eq_dec : EqDecision Description.
Proof. solve_decision. Defined.

Record Activity : Type := mkActivity {
  description : Description;
  time : Z;
  id : string;
  location : option Location
}.

(** [Activity.__init__] *)
Definition Activity_init (timestamp : Z) (d : Description)
    (identifier : string) (loc : option Location) : Activity :=
  {| description := d; time := timestamp; id := identifier;
     location := loc |}.

(** The outer dictionary of [_activities] always has the two keys [RIDER]
    and [DRIVER]; the inner ones map identifiers to activity lists. *)
Record t : Type := Monitor {
  rider_log : gmap string (list Activity);
  driver_log : gmap string (list Activity)
}.

Definition init : t := {| rider_log := ∅; driver_log := ∅ |}.

(** [self._activities[category]] and its update in place. *)
Definition _activities (self : t) (category : Category)
    : gmap string (list Activity) :=
  match category with
  | RIDER => rider_log self
  | DRIVER => driver_log self
  end.

Definition set_activities (category : Category)
    (log : gmap string (list Activity)) (self : t) : t :=
  match category with
  | RIDER => {| rider_log := log; driver_log := driver_log self |}
  | DRIVER => {| rider_log := rider_log self; driver_log := log |}
  end.

Definition notify (timestamp : Z) (category : Category) (d : Description)
    (identifier : string) (loc : option Location) (self : t) : t :=
  let log := _activities self category in
  let log := match log !! identifier with
             | None => <[identifier := []]> log
             | Some _ => log
             end in
  let activity := Activity_init timestamp d identifier loc in
  let log := <[identifier := default [] (log !! identifier) ++ [activity]]> log in
  set_activities category log self.

(** [d.values()]: the sums taken over it do not depend on the order. *)
Definition values (d : gmap string (list Activity)) : list (list Activity) :=
  (map_to_list d).*2.

(** A [for] loop whose body may raise. *)
Fixpoint for_each {A S : Type} (body : S -> A -> Res S) (l : list A) (s : S)
    : Res S :=
  match l with
  | [] => Ok s
  | x :: l' => s' <~ body s x ;; for_each body l' s'
  end.

(** Body of the loop of [_average_wait_time] on [(wait_time, count)]. *)
Definition wait_step (acc : Z * nat) (activities : list Activity) : Z * nat :=
  match activities with
  | a0 :: a1 :: _ => (fst acc + (time a1 - time a0), S (snd acc))
  | _ => acc
  end.

Definition _average_wait_time (self : t) : Res Q :=
  let acc := fold_left wait_step (values (_activities self RIDER)) (0, O) in
  float_true_div (fst acc) (snd acc).

(** [manhattan_distance] between the locations of two activities. *)
Definition leg (a b : Activity) : Res Z :=
  o <~ attr (location a) ;;
  d <~ attr (location b) ;;
  Ok (manhattan_distance o d).

(** [for i in range(len(activities) - 2)]: the window
    [activities[i], activities[i+1], activities[i+2]] slides over the log. *)
Fixpoint total_scan (distance : Z) (activities : list Activity) : Res Z :=
  match activities with
  | a0 :: ((a1 :: a2 :: _) as rest) =>
      distance <~
        (if bool_decide (description a0 = REQUEST) then
           d1 <~ leg a0 a1 ;;
           let distance := distance + d1 in
           if bool_decide (description a2 = DROPOFF) then
             d2 <~ leg a1 a2 ;;
             Ok (distance + d2)
           else Ok distance
         else Ok distance) ;;
      total_scan distance rest
  | _ => Ok distance
  end.

Definition _average_total_distance (self : t) : Res Q :=
  distance <~ for_each total_scan (values (_activities self DRIVER)) 0 ;;
  float_true_div distance (size (_activities self DRIVER)).

(** [for i in range(len(activities) - 1)]: consecutive pairs. *)
Fixpoint ride_scan (distance : Z) (activities : list Activity) : Res Z :=
  match activities with
  | a0 :: ((a1 :: _) as rest) =>
      distance <~
        (if bool_decide (description a0 = PICKUP) &&
            bool_decide (description a1 = DROPOFF) then
           d <~ leg a0 a1 ;;
           Ok (distance + d)
         else Ok distance) ;;
      ride_scan distance rest
  | _ => Ok distance
  end.

Definition _average_ride_distance (self : t) : Res Q :=
  distance <~ for_each ride_scan (values (_activities self DRIVER)) 0 ;;
  float_true_div distance (size (_activities self DRIVER)).

(** The dictionary [report] returns, keyed by its three fixed strings. *)
Record Report : Type := mkReport {
  rider_wait_time : Q;
  driver_total_distance : Q;
  driver_ride_distance : Q
}.

Definition report (self : t) : Res Report :=
  w <~ _average_wait_time self ;;
  t <~ _average_total_distance self ;;
  r <~ _average_ride_distance self ;;
  Ok {| rider_wait_time := w; driver_total_distance := t;
        driver_ride_distance := r |}.

End Monitor.

(** ** The world: object store, dispatcher and monitor *)

Module Dispatcher.

(** [_drivers] and [_riders] hold references, in registration and in
    request order. *)
Record t : Type := Dispatcher {
  _drivers : list nat;
  _riders : list nat
}.

Definition init : t := {| _drivers := []; _riders := [] |}.

End Dispatcher.

Record World : Type := mkWorld {
  drivers : nat -> Driver.t;
  riders : nat -> Rider.t;
  dispatcher : Dispatcher.t;
  monitor : Monitor.t
}.

Definition set_drivers (v : nat -> Driver.t) (w : World) : World :=
  {| drivers := v; riders := riders w; dispatcher := dispatcher w;
     monitor := monitor w |}.

Definition set_riders (v : nat -> Rider.t) (w : World) : World :=
  {| drivers := drivers w; riders := v; dispatcher := dispatcher w;
     monitor := monitor w |}.

Definition set_dispatcher (v : Dispatcher.t) (w : World) : World :=
  {| drivers := drivers w; riders := riders w; dispatcher := v;
     monitor := monitor w |}.

Definition set_monitor (v : Monitor.t) (w : World) : World :=
  {| drivers := drivers w; riders := riders w; dispatcher := dispatcher w;
     monitor := v |}.

(** Computations on the world that return or raise. *)
Definition M (A : Type) : Type := World -> Res A * World.

Definition ret {A} (a : A) : M A := fun w => (Ok a, w).

Definition bind {A B} (c : M A) (k : A -> M B) : M B :=
  fun w =>
    match c w with
    | (Ok a, w') => k a w'
    | (Raise e, w') => (Raise e, w')
    end.

Notation "x <- c ;; k" := (bind c (fun x => k))
  (at level 100, c at next level, right associativity).

(** Reading an object through its reference. *)
Definition driver_obj (d : nat) : M Driver.t := fun w => (Ok (drivers w d), w).
Definition rider_obj (r : nat) : M Rider.t := fun w => (Ok (riders w r), w).

(** Calling a method of [driver.py] on the object behind [d]. *)
Definition call {A} (d : nat) (method : Driver.t -> Driver.t * Res A) : M A :=
  fun w =>
    let '(self, r) := method (drivers w d) in
    (r, set_drivers (<[d := self]> (drivers w)) w).

(** [rider.status = s] *)
Definition assign_status (r : nat) (s : Rider.Status) : M unit :=
  fun w =>
    (Ok tt, set_riders (<[r := Rider.set_status s (riders w r)]> (riders w)) w).

(** [monitor.notify(...)] *)
Definition notify (timestamp : Z) (category : Monitor.Category)
    (d : Monitor.Description) (identifier : string) (loc : option Location)
    : M unit :=
  fun w =>
    (Ok tt,
     set_monitor (Monitor.notify timestamp category d identifier loc (monitor w))
       w).

(** ** dispatcher.py *)

(** [x in l] and [l.remove(x)] on a list of objects compare by identity
    first and by [__eq__] otherwise. *)
Definition same_driver (w : World) (a b : nat) : bool :=
  bool_decide (a = b) || Driver.eqb (drivers w a) (drivers w b).

Definition same_rider (w : World) (a b : nat) : bool :=
  bool_decide (a = b) || Rider.eqb (riders w a) (riders w b).

Fixpoint remove_first {A} (p : A -> bool) (l : list A) : list A :=
  match l with
  | [] => []
  | x :: l' => if p x then l' else x :: remove_first p l'
  end.

(** The loop of [request_driver] over [self._drivers], on the loop state
    [(min_time, driver)]. *)
Fixpoint scan_drivers (w : World) (origin : Location) (ds : list nat)
    (min_time : Z) (driver : option nat) : Res (option nat) :=
  match ds with
  | [] => Ok driver
  | d :: ds' =>
      if Driver.is_idle (drivers w d) then
        if min_time =? -1 then
          t <~ Driver.get_travel_time (drivers w d) origin ;;
          scan_drivers w origin ds' t (Some d)
        else
          t <~ Driver.get_travel_time (drivers w d) origin ;;
          if min_time >? t then
            t' <~ Driver.get_travel_time (drivers w d) origin ;;
            scan_drivers w origin ds' t' (Some d)
          else scan_drivers w origin ds' min_time driver
      else scan_drivers w origin ds' min_time driver
  end.

Definition request_driver (rider : nat) : M (option nat) :=
  fun w =>
    let self := dispatcher w in
    if bool_decide (length (Dispatcher._drivers self) = O) then
      (Ok None,
       set_dispatcher
         {| Dispatcher._drivers := Dispatcher._drivers self;
            Dispatcher._riders := Dispatcher._riders self ++ [rider] |} w)
    else
      (scan_drivers w (Rider.origin (riders w rider))
         (Dispatcher._drivers self) (-1) None, w).

Definition request_rider (driver : nat) : M (option nat) :=
  fun w =>
    let self := dispatcher w in
    let self :=
      if negb (existsb (fun e => same_driver w e driver)
                 (Dispatcher._drivers self))
      then {| Dispatcher._drivers := Dispatcher._drivers self ++ [driver];
              Dispatcher._riders := Dispatcher._riders self |}
      else self in
    match Dispatcher._riders self with
    | rider :: rest =>
        (Ok (Some rider),
         set_dispatcher {| Dispatcher._drivers := Dispatcher._drivers self;
                           Dispatcher._riders := rest |} w)
    | [] => (Ok None, set_dispatcher self w)
    end.

Definition cancel_ride (rider : nat) : M unit :=
  fun w =>
    let self := dispatcher w in
    if existsb (fun e => same_rider w e rider) (Dispatcher._riders self) then
      (Ok tt,
       set_dispatcher
         {| Dispatcher._drivers := Dispatcher._drivers self;
            Dispatcher._riders :=
              remove_first (fun e => same_rider w e rider)
                (Dispatcher._riders self) |} w)
    else (Ok tt, w).

(** ** event.py *)

Inductive Event : Type :=
| RiderRequest (timestamp : Z) (rider : nat)
| DriverRequest (timestamp : Z) (driver : nat)
| Cancellation (timestamp : Z) (rider : nat)
| Dropoff (timestamp : Z) (rider driver : nat)
| Pickup (timestamp : Z) (rider driver : nat).

Definition timestamp (e : Event) : Z :=
  match e with
  | RiderRequest t _ | DriverRequest t _ | Cancellation t _
  | Dropoff t _ _ | Pickup t _ _ => t
  end.

(** [Event.__lt__] and [Event.__le__] *)
Definition Event_lt (a b : Event) : bool := timestamp a <? timestamp b.
Definition Event_le (a b : Event) : bool := timestamp a <=? timestamp b.

Definition RiderRequest_do (timestamp : Z) (rider : nat) : M (list Event) :=
  r <- rider_obj rider ;;
  _ <- notify timestamp Monitor.RIDER Monitor.REQUEST (Rider.id r)
         (Some (Rider.origin r)) ;;
  driver <- request_driver rider ;;
  events <- match driver with
            | Some d =>
                travel_time <-
                  call d (fun self => Driver.start_drive self (Rider.origin r)) ;;
                ret [Pickup (timestamp + travel_time) rider d]
            | None => ret []
            end ;;
  ret (events ++ [Cancellation (timestamp + Rider.patience r) rider]).

Definition DriverRequest_do (timestamp : Z) (driver : nat) : M (list Event) :=
  d <- driver_obj driver ;;
  _ <- notify timestamp Monitor.DRIVER Monitor.REQUEST (Driver.id d)
         (Driver.location d) ;;
  rider <- request_rider driver ;;
  match rider with
  | Some r =>
      robj <- rider_obj r ;;
      travel_time <-
        call driver (fun self => Driver.start_drive self (Rider.origin robj)) ;;
      ret [Pickup (timestamp + travel_time) r driver]
  | None => ret []
  end.

Definition Cancellation_do (timestamp : Z) (rider : nat) : M (list Event) :=
  r <- rider_obj rider ;;
  if negb (bool_decide (Rider.status r = SATISFIED)) then
    _ <- notify timestamp Monitor.RIDER Monitor.CANCEL (Rider.id r)
           (Some (Rider.origin r)) ;;
    _ <- assign_status rider CANCELLED ;;
    _ <- cancel_ride rider ;;
    ret []
  else ret [].

Definition Dropoff_do (timestamp : Z) (rider driver : nat) : M (list Event) :=
  r <- rider_obj rider ;;
  d <- driver_obj driver ;;
  _ <- notify timestamp Monitor.RIDER Monitor.DROPOFF (Rider.id r)
         (Some (Rider.destination r)) ;;
  _ <- notify timestamp Monitor.DRIVER Monitor.DROPOFF (Driver.id d)
         (Some (Rider.destination r)) ;;
  _ <- call driver Driver.end_ride ;;
  ret [DriverRequest timestamp driver].

Definition Pickup_do (timestamp : Z) (rider driver : nat) : M (list Event) :=
  _ <- call driver Driver.end_drive ;;
  d <- driver_obj driver ;;
  _ <- notify timestamp Monitor.DRIVER Monitor.PICKUP (Driver.id d)
         (Driver.location d) ;;
  r <- rider_obj rider ;;
  if bool_decide (Rider.status r = WAITING) then
    _ <- notify timestamp Monitor.RIDER Monitor.PICKUP (Rider.id r)
           (Some (Rider.origin r)) ;;
    time <- call driver (fun self => Driver.start_ride self r) ;;
    _ <- assign_status rider SATISFIED ;;
    ret [Dropoff (timestamp + time) rider driver]
  else ret [DriverRequest timestamp driver].

(** [event.do(dispatcher, monitor)], by the event's class. *)
Definition do (e : Event) : M (list Event) :=
  match e with
  | RiderRequest t r => RiderRequest_do t r
  | DriverRequest t d => DriverRequest_do t d
  | Cancellation t r => Cancellation_do t r
  | Dropoff t r d => Dropoff_do t r d
  | Pickup t r d => Pickup_do t r d
  end.

(** ** simulation.py *)

Module PriorityQueue.

(** How two events with the same timestamp leave the queue: in insertion
    order, or the later one first. *)
Inductive Ties : Type := FIFO | LIFO.

Definition t : Type := list Event.

Definition init : t := [].

Definition is_empty (self : t) : bool :=
  match self with
  | [] => true
  | _ :: _ => false
  end.

(** Modelled from the spec: [container.py], which defines [PriorityQueue],
    is not among the sources.  The spec has "a priority queue [that] keeps
    events in timestamp order", from which "the globally-smallest remaining
    timestamp" is processed next, and leaves the order of equal timestamps
    to the implementation; [ties] is that choice.  The items are kept
    sorted by [Event.__lt__] / [Event.__le__] and [remove] takes the front. *)
Fixpoint add (ties : Ties) (item : Event) (self : t) : t :=
  match self with
  | [] => [item]
  | x :: rest =>
      if match ties with
         | FIFO => Event_lt item x
         | LIFO => Event_le item x
         end
      then item :: self
      else x :: add ties item rest
  end.

Definition remove (self : t) : option (Event * t) :=
  match self with
  | [] => None
  | x :: rest => Some (x, rest)
  end.

End PriorityQueue.

(** [for event in events: self._events.add(event)] *)
Definition add_all (ties : PriorityQueue.Ties) (events : list Event)
    (q : PriorityQueue.t) : PriorityQueue.t :=
  fold_left (fun q e => PriorityQueue.add ties e q) events q.

(** The [while] loop of [Simulation.run]; [None] when [fuel] iterations did
    not empty the queue. *)
Fixpoint loop (ties : PriorityQueue.Ties) (fuel : nat) (q : PriorityQueue.t)
    (w : World) : option (Res unit * World) :=
  if PriorityQueue.is_empty q then Some (Ok tt, w)
  else
    match fuel with
    | O => None
    | S fuel' =>
        match PriorityQueue.remove q with
        | None => Some (Raise IndexError, w)
        | Some (event, q') =>
            match do event w with
            | (Ok new_events, w') =>
                loop ties fuel' (add_all ties new_events q') w'
            | (Raise e, w') => Some (Raise e, w')
            end
        end
    end.

(** [Simulation.run(initial_events)] on a simulation whose dispatcher,
    monitor and queue are those of [w] and the empty queue. *)
Definition run (ties : PriorityQueue.Ties) (fuel : nat)
    (initial_events : list Event) (w : World)
    : option (Res Monitor.Report * World) :=
  match loop ties fuel (add_all ties initial_events PriorityQueue.init) w with
  | None => None
  | Some (Ok _, w') => Some (Monitor.report (monitor w'), w')
  | Some (Raise e, w') => Some (Raise e, w')
  end.

(** [Simulation()] over a store that holds rider [r] and driver [d], each
    behind reference 0. *)
Definition new_simulation (r : Rider.t) (d : Driver.t) : World :=
  {| drivers := fun _ => d; riders := fun _ => r;
     dispatcher := Dispatcher.init; monitor := Monitor.init |}.

(** * Predicates of the specification and example states *)

(** The rider and the driver of the doctest of [Simulation.run]. *)
Definition r1 : Rider.t :=
  Rider.init "r1" (Location.Location 0 0) (Location.Location 3 4) 4.

Definition d1 : Driver.t := Driver.init "d1" (Location.Location 0 4) 10.

(** The spec's invariant on a driver. *)
Definition idle_iff_no_destination (self : Driver.t) : Prop :=
  Driver.is_idle self = true <-> Driver._destination self = None.

(** d1 drives to r1, who has cancelled: the Pickup is due. *)
Definition pickup_after_cancel : World :=
  {| drivers := fun _ => fst (Driver.start_drive d1 (Rider.origin r1));
     riders := fun _ => Rider.set_status CANCELLED r1;
     dispatcher := Dispatcher.init; monitor := Monitor.init |}.

(** d1 has picked up r1 and the ride is under way. *)
Definition after_pickup : World :=
  {| drivers := fun _ => fst (Driver.start_ride d1 r1);
     riders := fun _ => Rider.set_status SATISFIED r1;
     dispatcher := {| Dispatcher._drivers := [O]; Dispatcher._riders := [] |};
     monitor := Monitor.notify 3 Monitor.RIDER Monitor.PICKUP "r1"
                  (Some (Rider.origin r1))
                  (Monitor.notify 2 Monitor.RIDER Monitor.REQUEST "r1"
                     (Some (Rider.origin r1)) Monitor.init) |}.

(** The rider r1 has cancelled while first in the waitlist. *)
Definition after_cancel : World :=
  {| drivers := fun _ => d1;
     riders := fun _ => Rider.set_status CANCELLED r1;
     dispatcher := {| Dispatcher._drivers := []; Dispatcher._riders := [O] |};
     monitor := Monitor.notify 6 Monitor.RIDER Monitor.CANCEL "r1"
                  (Some (Rider.origin r1))
                  (Monitor.notify 2 Monitor.RIDER Monitor.REQUEST "r1"
                     (Some (Rider.origin r1)) Monitor.init) |}.

(** The spec's travel time: floor(distance / speed) from the driver's
    location. *)
Definition floor_travel_time (self : Driver.t) (origin : Location) (t : Z)
    : Prop :=
  exists here, Driver.location self = Some here /\
               t = (manhattan_distance here origin / Driver._speed self)%Z.

(** A driver whose travel time to [origin] needs no rounding: it is
    somewhere, its speed is positive, and distance and speed are below
    2^53, where every integer is a double. *)
Definition exact_travel_time (self : Driver.t) (origin : Location) : Prop :=
  exists here, Driver.location self = Some here /\
               0 < Driver._speed self < 2 ^ 53 /\
               manhattan_distance here origin < 2 ^ 53.

(** What the loop of [request_driver] has found after the drivers [pre]. *)
Definition chosen (w : World) (origin : Location) (pre : list nat)
    (min_time : Z) (driver : option nat) : Prop :=
  match driver with
  | None =>
      min_time = -1 /\
      forall x, x ∈ pre -> Driver.is_idle (drivers w x) = false
  | Some d =>
      exists l1 l2,
        pre = l1 ++ d :: l2 /\
        Driver.is_idle (drivers w d) = true /\
        Driver.get_travel_time (drivers w d) origin = Ok min_time /\
        0 <= min_time /\
        (forall x t, x ∈ l1 -> Driver.is_idle (drivers w x) = true ->
           Driver.get_travel_time (drivers w x) origin = Ok t -> min_time < t) /\
        (forall x t, x ∈ l2 -> Driver.is_idle (drivers w x) = true ->
           Driver.get_travel_time (drivers w x) origin = Ok t -> min_time <= t)
  end.

(** The dispatcher of the doctest of [request_driver]: d (busy), d1 and d2
    are registered in this order, and rider n1 asks from (0,0). *)
Definition three_drivers : World :=
  {| drivers := fun x =>
       match x with
       | O => Driver.set_is_idle false
                (Driver.init "d" (Location.Location 5 5) 10)
       | S O => Driver.init "d1" (Location.Location 31 29) 20
       | _ => Driver.init "d2" (Location.Location 0 3) 5
       end;
     riders := fun _ =>
       Rider.init "n1" (Location.Location 0 0) (Location.Location 3 4) 2;
     dispatcher := {| Dispatcher._drivers := [0; 1; 2]%nat;
                      Dispatcher._riders := [] |};
     monitor := Monitor.init |}.

(** Two idle drivers of speed 1, "A" at (0,0) registered before "B" at
    (1,0), and a rider who asks from (2^53 + 1, 0). *)
Definition far_rider : World :=
  {| drivers := fun x =>
       match x with
       | O => Driver.init "A" (Location.Location 0 0) 1
       | _ => Driver.init "B" (Location.Location 1 0) 1
       end;
     riders := fun _ =>
       Rider.init "r" (Location.Location (2 ^ 53 + 1) 0)
         (Location.Location 0 0) 1;
     dispatcher := {| Dispatcher._drivers := [0; 1]%nat;
                      Dispatcher._riders := [] |};
     monitor := Monitor.init |}.

(** The activity was logged with a location. *)
Definition located (a : Monitor.Activity) : bool :=
  match Monitor.location a with
  | Some _ => true
  | None => false
  end.

(** Every activity of every driver's log has a location. *)
Definition drivers_located (m : Monitor.t) : bool :=
  forallb (forallb located) (Monitor.values (Monitor.driver_log m)).

(** The three sums that [report] divides (the total wait and, where the
    logged locations let them be computed, the two total distances) are
    below 2^1023 in magnitude, so that no average is too large for a
    float. *)
Definition sums_in_float_range (m : Monitor.t) : Prop :=
  Z.abs (fst (fold_left Monitor.wait_step
                (Monitor.values (Monitor.rider_log m)) (0, O))) < 2 ^ 1023 /\
  match Monitor.for_each Monitor.total_scan
          (Monitor.values (Monitor.driver_log m)) 0 with
  | Ok d => Z.abs d < 2 ^ 1023
  | Raise _ => True
  end /\
  match Monitor.for_each Monitor.ride_scan
          (Monitor.values (Monitor.driver_log m)) 0 with
  | Ok d => Z.abs d < 2 ^ 1023
  | Raise _ => True
  end.

(** Riders "a" and "b" and the driver "d" of a run in which the driver,
    still flagged idle while driving to "a", is assigned to "b" as well. *)
Definition two_riders_one_driver : World :=
  {| drivers := fun _ => Driver.init "d" (Location.Location 0 0) 1;
     riders := fun x =>
       match x with
       | O => Rider.init "a" (Location.Location 5 0) (Location.Location 5 5) 1
       | _ => Rider.init "b" (Location.Location 9 0) (Location.Location 9 9) 1
       end;
     dispatcher := Dispatcher.init; monitor := Monitor.init |}.

(** The monitor at the end of the reference scenario. *)
Definition reference_monitor : Monitor.t :=
  let o := Some (Location.Location 0 0) in
  let dest := Some (Location.Location 3 4) in
  foldl (fun m f => f m) Monitor.init
    [Monitor.notify 2 Monitor.RIDER Monitor.REQUEST "r1" o;
     Monitor.notify 3 Monitor.DRIVER Monitor.REQUEST "d1"
       (Some (Location.Location 0 4));
     Monitor.notify 3 Monitor.DRIVER Monitor.PICKUP "d1" o;
     Monitor.notify 3 Monitor.RIDER Monitor.PICKUP "r1" o;
     Monitor.notify 3 Monitor.RIDER Monitor.DROPOFF "r1" dest;
     Monitor.notify 3 Monitor.DRIVER Monitor.DROPOFF "d1" dest;
     Monitor.notify 3 Monitor.DRIVER Monitor.REQUEST "d1" dest].

(** * More of the sources *)

(** ** event.py: the remaining comparisons *)

(** [Event.__eq__], [__ne__], [__gt__] and [__ge__]: timestamps only. *)
Definition Event_eq (a b : Event) : bool := timestamp a =? timestamp b.
Definition Event_ne (a b : Event) : bool := negb (Event_eq a b).
Definition Event_gt (a b : Event) : bool := negb (Event_le a b).
Definition Event_ge (a b : Event) : bool := negb (Event_lt a b).

(** ** my_queue.py *)

Module Queue.

(** What [list.remove] and [list.pop] raise. *)
Inductive error : Type := ValueError | IndexError.

Section Items.

Context {A : Type} `{EqDecision A}.

(** [self._items]; a method returns what it raises, or its return value
    ([None] is [tt]) and the items after the call. *)
Definition t : Type := list A.

Definition init : t := [].

Definition add (item : A) (self : t) : unit * t := (tt, self ++ [item]).

(** [self._items.remove(item)]: the first item equal to [item] goes. *)
Definition remove (item : A) (self : t) : error + unit * t :=
  if existsb (fun x => bool_decide (x = item)) self then
    inr (tt, remove_first (fun x => bool_decide (x = item)) self)
  else inl ValueError.

(** [self._items.pop()]: the last item goes, and the method returns
    nothing. *)
Definition pop_ (self : t) : error + unit * t :=
  match self with
  | [] => inl IndexError
  | _ :: _ => inr (tt, removelast self)
  end.

Definition is_empty (self : t) : bool := bool_decide (length self = O).

(** [Queue.__eq__] between two queues. *)
Definition eqb (self other : t) : bool := bool_decide (self = other).

End Items.

End Queue.

(** * Predicates for the further properties *)

(** The computation [c] relates the world before to the world it leaves,
    whether it returns or raises. *)
Definition keeps {A} (P : World -> World -> Prop) (c : M A) : Prop :=
  forall w, P w (snd (c w)).

(** A method of [driver.py] leaves id and speed alone. *)
Definition driver_method {A} (method : Driver.t -> Driver.t * Res A) : Prop :=
  forall self,
    Driver.id (fst (method self)) = Driver.id self /\
    Driver._speed (fst (method self)) = Driver._speed self.

(** [m'] is [m] after some calls of [notify]. *)
Inductive notified (m : Monitor.t) : Monitor.t -> Prop :=
| notified_refl : notified m m
| notified_step m' t c d i loc :
    notified m m' -> notified m (Monitor.notify t c d i loc m').

(** Every log is non-empty and holds activities of its own key only. *)
Definition keyed (m : Monitor.t) : Prop :=
  forall c i log,
    Monitor._activities m c !! i = Some log ->
    log <> [] /\ Forall (fun a => Monitor.id a = i) log.

(** The wait of a rider whose log has two entries. *)
Definition first_wait (log : list Monitor.Activity) : option Z :=
  match log with
  | a0 :: a1 :: _ => Some (Monitor.time a1 - Monitor.time a0)
  | _ => None
  end.

Definition resolved_waits (m : Monitor.t) : list Z :=
  omap first_wait (Monitor.values (Monitor.rider_log m)).

Definition sum_Z (l : list Z) : Z := foldr Z.add 0 l.

(** Between two worlds no driver changed id or speed. *)
Definition same_driver_identity (w w' : World) : Prop :=
  forall d,
    Driver.id (drivers w' d) = Driver.id (drivers w d) /\
    Driver._speed (drivers w' d) = Driver._speed (drivers w d).

(** Between two worlds no rider changed id, origin, destination or
    patience, and no status other than Waiting changed. *)
Definition riders_settled (w w' : World) : Prop :=
  forall r,
    Rider.id (riders w' r) = Rider.id (riders w r) /\
    Rider.origin (riders w' r) = Rider.origin (riders w r) /\
    Rider.destination (riders w' r) = Rider.destination (riders w r) /\
    Rider.patience (riders w' r) = Rider.patience (riders w r) /\
    (Rider.status (riders w r) <> WAITING ->
     Rider.status (riders w' r) = Rider.status (riders w r)).

(** Between two worlds the registered drivers were only added to, at the
    end, and no reference was registered a second time. *)
Definition registry_grows (w w' : World) : Prop :=
  Dispatcher._drivers (dispatcher w)
    `prefix_of` Dispatcher._drivers (dispatcher w') /\
  (NoDup (Dispatcher._drivers (dispatcher w)) ->
   NoDup (Dispatcher._drivers (dispatcher w'))).

(** [request_driver] for the riders [rs] one after the other. *)
Definition request_all (rs : list nat) (w : World) : World :=
  fold_left (fun w r => snd (request_driver r w)) rs w.

(** [request_rider] for the drivers [ds] one after the other, with what
    each call returned. *)
Fixpoint serve_all (ds : list nat) (w : World)
    : list (Res (option nat)) * World :=
  match ds with
  | [] => ([], w)
  | d :: ds' =>
      let '(r, w1) := request_rider d w in
      let '(rs, w2) := serve_all ds' w1 in
      (r :: rs, w2)
  end.

(** Two rider objects with the same fields wait, the one behind reference 0
    first. *)
Definition equal_riders_waiting : World :=
  {| drivers := fun _ => d1; riders := fun _ => r1;
     dispatcher := {| Dispatcher._drivers := [];
                      Dispatcher._riders := [0; 1]%nat |};
     monitor := Monitor.init |}.

(** Two driver objects with the same id, location and idle flag and
    different speeds. *)
Definition equal_drivers : World :=
  {| drivers := fun x =>
       match x with
       | O => Driver.init "d1" (Location.Location 0 4) 10
       | _ => Driver.init "d1" (Location.Location 0 4) 99
       end;
     riders := fun _ => r1;
     dispatcher := Dispatcher.init; monitor := Monitor.init |}.

(** The initial events of a simulation in which only drivers ask:
    a [DriverRequest] per pair of timestamp and driver. *)
Definition driver_requests (reqs : list (Z * nat)) : list Event :=
  map (fun p => DriverRequest (fst p) (snd p)) reqs.

Definition is_driver_request (e : Event) : Prop :=
  match e with
  | DriverRequest _ _ => True
  | _ => False
  end.

(** A location whose coordinates are below 2^1021 in magnitude: between
    two of them the distance is below 2^1023, and no quotient of it is too
    large for a float. *)
Definition near (l : Location) : Prop :=
  Z.abs (Location.row l) < 2 ^ 1021 /\ Z.abs (Location.column l) < 2 ^ 1021.

(** A driver that is somewhere near and has a speed, and whose pending
    destination, if any, is near. *)
Definition sound_driver (self : Driver.t) : Prop :=
  (exists here, Driver.location self = Some here /\ near here) /\
  Driver._speed self <> 0 /\
  (forall l, Driver._destination self = Some l -> near l).

(** A rider whose origin and destination are near. *)
Definition sound_rider (r : Rider.t) : Prop :=
  near (Rider.origin r) /\ near (Rider.destination r).

(** The driver of a Pickup has the pending destination it is to arrive at;
    the other events need nothing. *)
Definition pickup_ready (e : Event) (w : World) : Prop :=
  match e with
  | Pickup _ _ d => is_Some (Driver._destination (drivers w d))
  | _ => True
  end.

(** * Properties *)

(** Unfolds the plumbing of a computation on the world, leaving the calls
    into the monitor and the dispatcher. *)
Ltac unfold_world :=
  unfold bind, ret, call, driver_obj, rider_obj, notify, assign_status;
  simpl.

(** ** Python's division *)

Lemma pow2_pos e : 0 < Float.pow2 e.
Proof. unfold Float.pow2. apply Z.pow_pos_nonneg; lia. Qed.

Lemma pow2_nonneg e : 0 <= e -> Float.pow2 e = 2 ^ e /\ Float.pow2 (- e) = 1.
Proof.
  intros He. unfold Float.pow2.
  rewrite (Z.max_r 0 e), (Z.max_l 0 (- e)) by lia. split; reflexivity.
Qed.

Lemma pow2_neg e : e <= 0 -> Float.pow2 e = 1 /\ Float.pow2 (- e) = 2 ^ (- e).
Proof.
  intros He. unfold Float.pow2.
  rewrite (Z.max_l 0 e), (Z.max_r 0 (- e)) by lia. split; reflexivity.
Qed.

Lemma round_half_even_bounds n d :
  0 <= n -> 0 < d ->
  n / d <= Float.round_half_even n d <= n / d + 1 /\
  (Float.round_half_even n d = n / d + 1 -> d <= 2 * (n mod d)).
Proof.
  intros Hn Hd. unfold Float.round_half_even.
  destruct (Z.ltb_spec (2 * (n mod d)) d); [lia|].
  destruct (Z.ltb_spec d (2 * (n mod d))); [lia|].
  destruct (Z.even (n / d)); lia.
Qed.

Lemma nearest_nonneg a b :
  0 <= a -> 0 < b -> 0 <= fst (Float.nearest a b).
Proof.
  intros Ha Hb. unfold Float.nearest. simpl.
  set (e := Float.exponent a b).
  pose proof (pow2_pos e). pose proof (pow2_pos (- e)).
  assert (Hn : 0 <= Float.numerator a e) by (unfold Float.numerator; nia).
  assert (Hd : 0 < Float.denominator b e) by (unfold Float.denominator; nia).
  pose proof (round_half_even_bounds _ _ Hn Hd) as [[Hlo _] _].
  pose proof (Z.div_pos _ _ Hn Hd). lia.
Qed.

Lemma true_div_zero a : Float.true_div a 0 = Raise ZeroDivisionError.
Proof. reflexivity. Qed.

Lemma true_div_raises a b x :
  Float.true_div a b = Raise x ->
  (x = ZeroDivisionError /\ b = 0) \/ (x = OverflowError /\ b <> 0).
Proof.
  unfold Float.true_div. destruct (Z.eqb_spec b 0) as [->|Hb].
  - intros [= <-]. left. split; reflexivity.
  - destruct (Float.nearest _ _) as [m e].
    destruct (_ <=? _); [|discriminate].
    intros [= <-]. right. split; [reflexivity | exact Hb].
Qed.

(** A quotient below 2^1023 in magnitude is within the range of a
    double. *)
Lemma true_div_in_range a b :
  b <> 0 -> Z.abs a < 2 ^ 1023 -> exists x, Float.true_div a b = Ok x.
Proof.
  intros Hb Ha. unfold Float.true_div.
  rewrite (proj2 (Z.eqb_neq b 0) Hb).
  unfold Float.nearest.
  set (A := Z.abs a) in *. set (B := Z.abs b).
  assert (HA : 0 <= A) by (subst A; lia).
  assert (HB : 1 <= B) by (subst B; lia).
  set (e := Float.exponent A B).
  assert (He : e <= 1023).
  { subst e. unfold Float.exponent.
    assert (Z.log2 A < 1023).
    { destruct (Z.eq_dec A 0) as [->|]; [simpl; lia|].
      apply Z.log2_lt_pow2; lia. }
    pose proof (Z.log2_nonneg B).
    destruct (_ <? _); lia. }
  pose proof (pow2_pos e) as Hp. pose proof (pow2_pos (- e)) as Hp'.
  assert (Hn : 0 <= Float.numerator A e) by (unfold Float.numerator; nia).
  assert (Hd : 0 < Float.denominator B e) by (unfold Float.denominator; nia).
  pose proof (round_half_even_bounds _ _ Hn Hd) as [[_ Hhi] _].
  pose proof (Z.mul_div_le (Float.numerator A e) _ Hd) as Hq.
  pose proof (Z.div_pos _ _ Hn Hd) as Hq0.
  set (q := Float.numerator A e / Float.denominator B e) in *.
  set (m := Float.round_half_even _ _) in *.
  destruct (Z.leb_spec (Float.numerator (2 ^ 1024) e) (Float.denominator m e))
    as [Hover|_]; [exfalso | eexists; reflexivity].
  unfold Float.numerator, Float.denominator in *.
  assert (H24 : 2 ^ 1024 = 2 * 2 ^ 1023) by (vm_compute; reflexivity).
  rewrite H24 in Hover.
  set (T := 2 ^ 1023) in *.
  destruct (Z.le_gt_cases 0 e) as [Hpos|Hneg].
  - destruct (pow2_nonneg e Hpos) as [E1 E2]. rewrite E2 in *.
    assert (Hs : Float.pow2 e <= T).
    { rewrite E1. subst T. apply Z.pow_le_mono_r; lia. }
    set (s := Float.pow2 e) in *.
    assert (q * s <= A) by nia.
    nia.
  - destruct (pow2_neg e ltac:(lia)) as [E1 E2]. rewrite E1 in *.
    set (s := Float.pow2 (- e)) in *.
    assert (q <= A * s) by nia.
    nia.
Qed.

(** Below 2^53 the truncated double is the truncated quotient. *)
Lemma int_true_div_small a b :
  0 <= a < 2 ^ 53 -> 0 < b < 2 ^ 53 -> int_true_div a b = Ok (a / b).
Proof.
  intros Ha Hb.
  destruct (true_div_in_range a b) as ([m e] & E); [lia| |].
  { assert (2 ^ 53 < 2 ^ 1023) by (apply Z.pow_lt_mono_r; lia). lia. }
  unfold int_true_div. rewrite E. simpl. f_equal.
  unfold Float.true_div in E.
  rewrite (proj2 (Z.eqb_neq b 0)) in E by lia.
  rewrite (Z.abs_eq a), (Z.abs_eq b) in E by lia.
  destruct (Float.nearest a b) as [m0 e0] eqn:En.
  destruct (_ <=? _); [discriminate|]. injection E as Em Ee. subst e0.
  destruct (Z.eq_dec a 0) as [->|Ha0].
  { (* a = 0 *)
    unfold Float.nearest in En. injection En as Hm _.
    unfold Float.numerator, Float.round_half_even in Hm.
    rewrite Z.mul_0_l, Z.div_0_l, Z.mod_0_l in Hm.
    - pose proof (pow2_pos (Float.exponent 0 b)).
      unfold Float.denominator in Hm.
      destruct (Z.ltb_spec (2 * 0) (b * Float.pow2 (Float.exponent 0 b)));
        [|nia].
      subst m0. rewrite Z.mul_0_r in Em. subst m.
      pose proof (pow2_pos (- e)).
      rewrite Z.mul_0_l. rewrite Z.quot_0_l, Z.div_0_l; lia.
    - unfold Float.denominator.
      pose proof (pow2_pos (Float.exponent 0 b)). nia.
    - unfold Float.denominator.
      pose proof (pow2_pos (Float.exponent 0 b)). nia. }
  assert (Hsgn : Z.sgn a * Z.sgn b = 1).
  { rewrite (Z.sgn_pos a), (Z.sgn_pos b) by lia. reflexivity. }
  rewrite Hsgn, Z.mul_1_l in Em. subst m0.
  (* the exponent *)
  assert (Hla : 0 <= Z.log2 a <= 52).
  { split; [apply Z.log2_nonneg|].
    assert (Z.log2 a < 53) by (apply Z.log2_lt_pow2; lia). lia. }
  assert (Hlb : 0 <= Z.log2 b <= 52).
  { split; [apply Z.log2_nonneg|].
    assert (Z.log2 b < 53) by (apply Z.log2_lt_pow2; lia). lia. }
  pose proof (Z.log2_spec a ltac:(lia)) as [Hal _].
  pose proof (Z.log2_spec b ltac:(lia)) as [_ Hbu].
  assert (Hkey : e <= 0 /\ 2 ^ 52 * b <= a * 2 ^ (- e) /\
                 m = Float.round_half_even (a * 2 ^ (- e)) b).
  { unfold Float.nearest in En. injection En as Hm He.
    rewrite He in Hm. unfold Float.exponent in He.
    set (e1 := Z.log2 a - Z.log2 b - 53) in *.
    destruct (pow2_neg e1 ltac:(lia)) as [E1 E2].
    assert (Hk1 : 2 ^ 52 * b < a * 2 ^ (- e1)).
    { assert (2 ^ (53 + Z.log2 b) <= a * 2 ^ (- e1)).
      { replace (53 + Z.log2 b) with (Z.log2 a + - e1) by lia.
        rewrite Z.pow_add_r by lia.
        apply Z.mul_le_mono_nonneg_r; [apply Z.pow_nonneg; lia | exact Hal]. }
      assert (2 ^ (53 + Z.log2 b) = 2 ^ 52 * 2 ^ Z.succ (Z.log2 b)).
      { rewrite <- Z.pow_add_r by lia. f_equal. lia. }
      assert (0 < 2 ^ 52) by (apply Z.pow_pos_nonneg; lia).
      nia. }
    unfold Float.numerator, Float.denominator in He.
    rewrite E1, E2, Z.mul_1_r in He.
    destruct (Z.ltb_spec (a * 2 ^ (- e1) / b) (2 ^ 53)) as [Hlt|Hge].
    - rewrite Z.max_l in He by lia. subst e.
      split; [lia|]. split; [lia|].
      rewrite <- Hm. unfold Float.numerator, Float.denominator.
      rewrite E1, E2, Z.mul_1_r. reflexivity.
    - rewrite Z.max_l in He by lia. subst e.
      destruct (pow2_neg (e1 + 1) ltac:(lia)) as [E3 E4].
      split; [lia|]. split.
      + pose proof (Z.mul_div_le (a * 2 ^ (- e1)) b ltac:(lia)).
        assert (2 ^ (- e1) = 2 * 2 ^ (- (e1 + 1))).
        { replace (- e1) with (1 + - (e1 + 1)) by lia.
          rewrite Z.pow_add_r by lia. reflexivity. }
        assert (H53 : 2 ^ 53 = 2 * 2 ^ 52) by reflexivity.
        set (P52 := 2 ^ 52) in *. set (P53 := 2 ^ 53) in *.
        nia.
      + rewrite <- Hm. unfold Float.numerator, Float.denominator.
        rewrite E3, E4, Z.mul_1_r. reflexivity. }
  destruct Hkey as (He & Hk & Hm).
  destruct (pow2_neg e He) as [E1 E2]. rewrite E1, E2, Z.mul_1_r.
  assert (Hs : 0 < 2 ^ (- e)) by (apply Z.pow_pos_nonneg; lia).
  set (s := 2 ^ (- e)) in *.
  assert (H53 : 2 ^ 53 = 2 * 2 ^ 52) by reflexivity.
  assert (H52 : 0 < 2 ^ 52) by (apply Z.pow_pos_nonneg; lia).
  assert (Hbs : b < 2 * s).
  { set (P52 := 2 ^ 52) in *. set (P53 := 2 ^ 53) in *. nia. }
  clear H53 H52 Hk Hal Hbu Hla Hlb.
  assert (Hn : 0 <= a * s) by nia.
  pose proof (round_half_even_bounds (a * s) b Hn ltac:(lia)) as [[Hlo Hhi] Hup].
  rewrite <- Hm in Hlo, Hhi, Hup.
  pose proof (Z.div_mod a b ltac:(lia)) as Hab.
  pose proof (Z.mod_pos_bound a b ltac:(lia)) as Hr0.
  pose proof (Z.div_mod (a * s) b ltac:(lia)) as Hasb.
  pose proof (Z.mod_pos_bound (a * s) b ltac:(lia)) as Hr.
  pose proof (Z.div_pos a b ltac:(lia) ltac:(lia)) as Hk0.
  set (k0 := a / b) in *. set (r0 := a mod b) in *.
  set (q := a * s / b) in *. set (r := (a * s) mod b) in *.
  assert (Hq1 : k0 * s <= q) by nia.
  assert (Hq2 : q < (k0 + 1) * s) by nia.
  assert (Hm2 : m < (k0 + 1) * s).
  { destruct (Z.eq_dec m (q + 1)) as [Hmq|]; [|lia].
    specialize (Hup Hmq).
    destruct (Z.eq_dec (q + 1) ((k0 + 1) * s)) as [Hq3|]; [|lia].
    exfalso. nia. }
  rewrite Z.quot_div_nonneg by lia.
  symmetry. apply (Z.div_unique m s k0 (m - k0 * s)); lia.
Qed.

Lemma int_true_div_nonneg a b t :
  0 <= a -> 0 <= b -> int_true_div a b = Ok t -> 0 <= t.
Proof.
  intros Ha Hb. unfold int_true_div, Float.true_div.
  destruct (Z.eqb_spec b 0) as [_|Hne]; [discriminate|].
  pose proof (nearest_nonneg (Z.abs a) (Z.abs b) ltac:(lia) ltac:(lia)) as Hm.
  destruct (Float.nearest _ _) as [m e]. simpl in Hm.
  destruct (_ <=? _); [discriminate|]. simpl. intros [= <-].
  pose proof (pow2_pos e). pose proof (pow2_pos (- e)).
  apply Z.quot_pos; [|lia].
  assert (0 <= Z.sgn a * Z.sgn b) by nia. nia.
Qed.

Lemma int_true_div_raises a b x :
  int_true_div a b = Raise x ->
  (x = ZeroDivisionError /\ b = 0) \/ (x = OverflowError /\ b <> 0).
Proof.
  unfold int_true_div.
  destruct (Float.true_div a b) as [y|x'] eqn:E; [discriminate|].
  intros [= <-]. exact (true_div_raises a b x' E).
Qed.

Lemma int_true_div_in_range a b :
  b <> 0 -> Z.abs a < 2 ^ 1023 -> exists t, int_true_div a b = Ok t.
Proof.
  intros Hb Ha. unfold int_true_div.
  destruct (true_div_in_range a b Hb Ha) as (x & ->). eexists. reflexivity.
Qed.

Lemma float_true_div_raises a n x :
  float_true_div a n = Raise x ->
  (x = ZeroDivisionError /\ n = O) \/ (x = OverflowError /\ n <> O).
Proof.
  unfold float_true_div.
  destruct (Float.true_div a (Z.of_nat n)) as [y|x'] eqn:E; [discriminate|].
  intros [= <-].
  destruct (true_div_raises _ _ _ E) as [[-> H]|[-> H]]; [left|right];
    (split; [reflexivity | lia]).
Qed.

Lemma float_true_div_zero a : float_true_div a 0 = Raise ZeroDivisionError.
Proof. reflexivity. Qed.

Lemma float_true_div_zero_iff a n :
  float_true_div a n = Raise ZeroDivisionError <-> n = O.
Proof.
  split.
  - intros H. destruct (float_true_div_raises _ _ _ H) as [[_ Hn]|[Hx _]];
      [exact Hn | discriminate Hx].
  - intros ->. reflexivity.
Qed.

Lemma float_true_div_in_range a n :
  (0 < n)%nat -> Z.abs a < 2 ^ 1023 -> exists q, float_true_div a n = Ok q.
Proof.
  intros Hn Ha. unfold float_true_div.
  destruct (true_div_in_range a (Z.of_nat n) ltac:(lia) Ha) as (x & ->).
  eexists. reflexivity.
Qed.

Lemma float_true_div_nonneg a n q :
  0 <= a -> float_true_div a n = Ok q -> (0 <= q)%Q.
Proof.
  intros Ha. unfold float_true_div, Float.true_div.
  destruct (Z.eqb_spec (Z.of_nat n) 0) as [_|Hne]; [discriminate|].
  pose proof (nearest_nonneg (Z.abs a) (Z.abs (Z.of_nat n))
                ltac:(lia) ltac:(lia)) as Hm.
  destruct (Float.nearest _ _) as [m e]. simpl in Hm.
  destruct (_ <=? _); [discriminate|]. simpl. intros [= <-].
  rewrite Qred_correct. unfold Qle. simpl.
  pose proof (pow2_pos e).
  assert (0 <= Z.sgn a * Z.sgn (Z.of_nat n)) by nia. nia.
Qed.

(** Beyond 2^53 the double shows: 2^53 + 1 is rounded to 2^53 and 2^53 + 3
    to 2^53 + 4, and 10^400 is too large for a float. *)
Example int_true_div_beyond_double :
  int_true_div (2 ^ 53 + 1) 1 = Ok (2 ^ 53) /\
  int_true_div (2 ^ 53 + 3) 1 = Ok (2 ^ 53 + 4) /\
  int_true_div (10 ^ 400) 1 = Raise OverflowError /\
  int_true_div (10 ^ 400) 0 = Raise ZeroDivisionError.
Proof. vm_compute. repeat split; reflexivity. Qed.

(** ** The reference scenario of [Simulation.run] *)

Lemma loop_more_fuel ties fuel n q w out :
  loop ties fuel q w = Some out -> loop ties (fuel + n) q w = Some out.
Proof.
  revert q w. induction fuel as [|fuel IH]; intros q w.
  - destruct q as [|e q]; simpl.
    + intros H. destruct n; exact H.
    + discriminate.
  - destruct q as [|e q]; simpl; [tauto|].
    destruct (do e w) as [[new_events|x] w']; [apply IH | tauto].
Qed.

(** C1. The two initial events RiderRequest(2, r1: (0,0) -> (3,4),
    patience 4) and DriverRequest(3, d1 at (0,4), speed 10) make
    [Simulation.run] return rider_wait_time 1.0, driver_total_distance 11.0
    and driver_ride_distance 7.0: six iterations empty the queue, whatever
    the order in which the queue releases equal timestamps, and any larger
    bound on the iterations gives the same report. *)
Theorem run_reference_scenario (ties : PriorityQueue.Ties) (n : nat) :
  fst <$> run ties (6 + n) [RiderRequest 2 0; DriverRequest 3 0]
            (new_simulation r1 d1)
  = Some (Ok {| Monitor.rider_wait_time := 1%Q;
                Monitor.driver_total_distance := 11%Q;
                Monitor.driver_ride_distance := 7%Q |}).
Proof.
  unfold run.
  erewrite (loop_more_fuel ties 6 n);
    [| destruct ties; vm_compute; reflexivity].
  destruct ties; vm_compute; reflexivity.
Qed.

(** ** The driver's idle flag and pending destination *)

Lemma init_idle_iff_no_destination i loc speed :
  idle_iff_no_destination (Driver.init i loc speed).
Proof. unfold idle_iff_no_destination; simpl; tauto. Qed.

Lemma start_ride_idle_iff_no_destination self rider :
  idle_iff_no_destination (fst (Driver.start_ride self rider)).
Proof. unfold idle_iff_no_destination; simpl; split; discriminate. Qed.

Lemma end_drive_idle_iff_no_destination self :
  idle_iff_no_destination (fst (Driver.end_drive self)).
Proof. unfold idle_iff_no_destination; simpl; tauto. Qed.

Lemma end_ride_idle_iff_no_destination self :
  idle_iff_no_destination (fst (Driver.end_ride self)).
Proof. unfold idle_iff_no_destination; simpl; tauto. Qed.

(** What every sequence of operations does maintain: a driver without a
    pending destination is idle. *)
Lemma run_ops_no_destination_idle ops : forall self,
  (Driver._destination self = None -> Driver.is_idle self = true) ->
  Driver._destination (Driver.run_ops self ops) = None ->
  Driver.is_idle (Driver.run_ops self ops) = true.
Proof.
  induction ops as [|o ops IH]; intros self Hself; [exact Hself|].
  apply IH. destruct o; simpl; intros H; try discriminate; reflexivity.
Qed.

(** C2 (violated by [start_drive]). A freshly constructed driver that starts
    a drive has a pending destination and is still flagged idle: the
    equivalence "idle iff no destination" holds after construction,
    [start_ride], [end_drive] and [end_ride], and is broken by [start_drive],
    which never clears [is_idle]. *)
Theorem start_drive_breaks_idle_iff_no_destination :
  let d := Driver.run_ops (Driver.init "d1" (Location.Location 0 4) 10)
             [Driver.StartDrive (Location.Location 9 5)] in
  Driver.is_idle d = true /\
  Driver._destination d = Some (Location.Location 9 5) /\
  ~ idle_iff_no_destination d.
Proof.
  simpl. split; [reflexivity|]. split; [reflexivity|].
  intros [H _]. specialize (H eq_refl). discriminate H.
Qed.

(** ** Ending a drive or a ride without a pending destination *)

(** C5, as the spec states it, fails: on the freshly constructed driver d1
    (no pending destination) [end_drive] and [end_ride] return normally and
    change the driver: its location becomes [None]. *)
Lemma end_without_destination_returns :
  Driver._destination d1 = None /\
  snd (Driver.end_drive d1) = Ok tt /\ fst (Driver.end_drive d1) <> d1 /\
  snd (Driver.end_ride d1) = Ok tt /\ fst (Driver.end_ride d1) <> d1.
Proof. repeat split; discriminate. Qed.

(** C5, amended. On a driver whose pending destination is none, [end_drive]
    and [end_ride] raise nothing: they return normally, set the location to
    none (the value of the pending destination), set [is_idle] and leave the
    destination none; id and speed are unchanged. *)
Theorem end_without_destination (self : Driver.t) :
  Driver._destination self = None ->
  Driver.end_drive self =
    ({| Driver.id := Driver.id self; Driver.location := None;
        Driver._speed := Driver._speed self; Driver.is_idle := true;
        Driver._destination := None |}, Ok tt) /\
  Driver.end_ride self = Driver.end_drive self.
Proof.
  intros H. unfold Driver.end_drive, Driver.end_ride, Driver.set_location,
    Driver.set_destination, Driver.set_is_idle; simpl.
  rewrite H. split; reflexivity.
Qed.

Lemma end_without_destination_witness :
  Driver._destination d1 = None /\
  Driver.end_drive d1 =
    ({| Driver.id := "d1"; Driver.location := None; Driver._speed := 10;
        Driver.is_idle := true; Driver._destination := None |}, Ok tt).
Proof.
  split; [reflexivity|].
  exact (proj1 (end_without_destination d1 eq_refl)).
Defined.

(** ** Events on riders that are no longer waiting *)

Lemma notify_lookup t c d i loc m :
  Monitor._activities (Monitor.notify t c d i loc m) c !! i
  = Some (default [] (Monitor._activities m c !! i)
          ++ [Monitor.Activity_init t d i loc]).
Proof.
  unfold Monitor.notify.
  destruct c; simpl;
    [destruct (Monitor.rider_log m !! i) as [log|] eqn:E
    |destruct (Monitor.driver_log m !! i) as [log|] eqn:E];
    simpl; rewrite lookup_insert_eq;
    try rewrite E; try rewrite lookup_insert_eq; reflexivity.
Qed.

Lemma notify_lookup_ne t c d i j loc m :
  i <> j ->
  Monitor._activities (Monitor.notify t c d i loc m) c !! j
  = Monitor._activities m c !! j.
Proof.
  intros Hne. unfold Monitor.notify.
  destruct c; simpl;
    [destruct (Monitor.rider_log m !! i) as [log|] eqn:E
    |destruct (Monitor.driver_log m !! i) as [log|] eqn:E];
    simpl; repeat (rewrite lookup_insert_ne by exact Hne); reflexivity.
Qed.

Lemma notify_changes t c d i loc m : Monitor.notify t c d i loc m <> m.
Proof.
  intros Heq. pose proof (notify_lookup t c d i loc m) as H.
  rewrite Heq in H.
  destruct (Monitor._activities m c !! i) as [log|]; simpl in H;
    [|discriminate].
  injection H as H. apply (f_equal length) in H.
  rewrite length_app in H. simpl in H. lia.
Qed.

Arguments Monitor.notify : simpl never.

Lemma remove_first_absent {A} (p : A -> bool) (l : list A) :
  existsb p l = false -> remove_first p l = l.
Proof.
  induction l as [|x l IH]; simpl; [reflexivity|].
  destruct (p x); simpl; [discriminate|].
  intros H. rewrite IH by exact H. reflexivity.
Qed.

Lemma same_rider_ext w w' a b :
  (forall r, riders w' r = riders w r) -> same_rider w' a b = same_rider w a b.
Proof. intros H. unfold same_rider. rewrite !H. reflexivity. Qed.

Lemma existsb_pointwise {A} (p q : A -> bool) (l : list A) :
  (forall x, p x = q x) -> existsb p l = existsb q l.
Proof. intros H. induction l as [|x l IH]; simpl; [|rewrite H, IH]; reflexivity. Qed.

Lemma remove_first_ext {A} (p q : A -> bool) (l : list A) :
  (forall x, p x = q x) -> remove_first p l = remove_first q l.
Proof.
  intros H. induction l as [|x l IH]; simpl; [reflexivity|].
  rewrite H, IH. reflexivity.
Qed.

(** C4. A Pickup whose rider is not Waiting does not fail: it ends the
    driver's drive (the driver arrives at the pending destination and is
    idle without destination), logs the driver's pickup, returns exactly
    one event, a DriverRequest for the same driver at the Pickup's
    timestamp, and leaves every rider, the rider's status included, and the
    dispatcher as they were. *)
Theorem pickup_of_non_waiting_rider (t : Z) (rider driver : nat) (w : World) :
  Rider.status (riders w rider) <> WAITING ->
  exists w',
    Pickup_do t rider driver w = (Ok [DriverRequest t driver], w') /\
    drivers w' driver = fst (Driver.end_drive (drivers w driver)) /\
    Driver.location (drivers w' driver)
      = Driver._destination (drivers w driver) /\
    Driver.is_idle (drivers w' driver) = true /\
    Driver._destination (drivers w' driver) = None /\
    (forall d', d' <> driver -> drivers w' d' = drivers w d') /\
    riders w' = riders w /\
    dispatcher w' = dispatcher w /\
    monitor w' = Monitor.notify t Monitor.DRIVER Monitor.PICKUP
                   (Driver.id (drivers w driver))
                   (Driver._destination (drivers w driver)) (monitor w).
Proof.
  intros Hst.
  unfold Pickup_do. unfold_world.
  rewrite bool_decide_eq_false_2 by exact Hst.
  eexists; split; [reflexivity|]; simpl.
  rewrite fn_lookup_insert; simpl.
  repeat split; try reflexivity.
  intros d' Hne. apply fn_lookup_insert_ne. congruence.
Qed.

Lemma pickup_of_non_waiting_rider_witness :
  Rider.status (riders pickup_after_cancel 0) <> WAITING /\
  fst (Pickup_do 12 0 0 pickup_after_cancel) = Ok [DriverRequest 12 0].
Proof.
  assert (H : Rider.status (riders pickup_after_cancel 0) <> WAITING)
    by (simpl; discriminate).
  split; [exact H|].
  destruct (pickup_of_non_waiting_rider 12 0 0 pickup_after_cancel H)
    as (w' & E & _).
  rewrite E. reflexivity.
Defined.

(** C7. A Cancellation for a rider that is Satisfied returns no event and
    changes nothing: the rider stays Satisfied, and the monitor's rider and
    driver logs, the dispatcher's registered drivers and waitlist, and
    every driver and rider are exactly as before. *)
Theorem cancellation_of_satisfied_rider (t : Z) (rider : nat) (w : World) :
  Rider.status (riders w rider) = SATISFIED ->
  Cancellation_do t rider w = (Ok [], w).
Proof.
  intros Hst. unfold Cancellation_do. unfold_world.
  rewrite Hst. reflexivity.
Qed.

Lemma cancellation_of_satisfied_rider_witness :
  Rider.status (riders after_pickup 0) = SATISFIED /\
  Cancellation_do 6 0 after_pickup = (Ok [], after_pickup).
Proof.
  split; [reflexivity|].
  exact (cancellation_of_satisfied_rider 6 0 after_pickup eq_refl).
Defined.

(** C10. A Cancellation for a rider that is already Cancelled is carried
    out again: it returns no event, appends one more Cancel activity (at
    the rider's origin) to that rider's log and touches no other log, leaves
    the status Cancelled and every rider and driver as they were, and has the
    dispatcher remove the rider from the waitlist (the first waiting rider
    that is this one or equals it, if any). *)
Theorem cancellation_of_cancelled_rider (t : Z) (rider : nat) (w : World) :
  Rider.status (riders w rider) = CANCELLED ->
  exists w',
    Cancellation_do t rider w = (Ok [], w') /\
    monitor w' = Monitor.notify t Monitor.RIDER Monitor.CANCEL
                   (Rider.id (riders w rider))
                   (Some (Rider.origin (riders w rider))) (monitor w) /\
    Monitor.rider_log (monitor w') !! Rider.id (riders w rider)
      = Some (default [] (Monitor.rider_log (monitor w)
                            !! Rider.id (riders w rider))
              ++ [Monitor.Activity_init t Monitor.CANCEL
                    (Rider.id (riders w rider))
                    (Some (Rider.origin (riders w rider)))]) /\
    monitor w' <> monitor w /\
    Monitor.driver_log (monitor w') = Monitor.driver_log (monitor w) /\
    Rider.status (riders w' rider) = CANCELLED /\
    (forall r, riders w' r = riders w r) /\
    drivers w' = drivers w /\
    Dispatcher._drivers (dispatcher w') = Dispatcher._drivers (dispatcher w) /\
    Dispatcher._riders (dispatcher w')
      = remove_first (fun e => same_rider w e rider)
          (Dispatcher._riders (dispatcher w)).
Proof.
  intros Hst.
  assert (Hsame : forall r,
    (<[rider := Rider.set_status CANCELLED (riders w rider)]> (riders w)) r
    = riders w r).
  { intros r. destruct (decide (rider = r)) as [->|Hne].
    - rewrite fn_lookup_insert. destruct (riders w r); simpl in *.
      rewrite Hst. reflexivity.
    - apply fn_lookup_insert_ne. exact Hne. }
  unfold Cancellation_do, cancel_ride. unfold_world.
  rewrite Hst; simpl.
  match goal with
  | |- context [existsb ?p ?l] => destruct (existsb p l) eqn:Hin
  end; simpl; eexists; (split; [reflexivity|]); simpl;
    (split; [reflexivity|]);
    (split; [apply (notify_lookup t Monitor.RIDER)|]);
    (split; [apply notify_changes|]);
    (split; [reflexivity|]);
    (split; [rewrite fn_lookup_insert; reflexivity|]);
    (split; [exact Hsame|]);
    (split; [reflexivity|]);
    (split; [reflexivity|]).
  - apply remove_first_ext. intros e. apply same_rider_ext. exact Hsame.
  - symmetry. apply remove_first_absent. rewrite <- Hin.
    apply existsb_pointwise. intros e. symmetry. apply same_rider_ext. exact Hsame.
Qed.

Lemma cancellation_of_cancelled_rider_witness :
  Rider.status (riders after_cancel 0) = CANCELLED /\
  exists w',
    Cancellation_do 9 0 after_cancel = (Ok [], w') /\
    (length <$> Monitor.rider_log (monitor w') !! "r1") = Some 3%nat /\
    Dispatcher._riders (dispatcher w') = [].
Proof.
  split; [reflexivity|].
  destruct (cancellation_of_cancelled_rider 9 0 after_cancel eq_refl)
    as (w' & E & _ & Hlog & _ & _ & _ & _ & _ & _ & Hq).
  exists w'. split; [exact E|]. split.
  - change (Rider.id (riders after_cancel 0)) with "r1" in Hlog.
    rewrite Hlog. vm_compute. reflexivity.
  - rewrite Hq. vm_compute. reflexivity.
Defined.

(** ** [request_driver] *)


Lemma scan_drivers_none_idle w origin ds :
  (forall d, d ∈ ds -> Driver.is_idle (drivers w d) = false) ->
  forall min_time driver,
    scan_drivers w origin ds min_time driver = Ok driver.
Proof.
  induction ds as [|d ds IH]; intros Hbusy min_time driver; simpl;
    [reflexivity|].
  rewrite (Hbusy d) by (left).
  apply IH. intros x Hx. apply Hbusy. right. exact Hx.
Qed.

(** [_drivers] only ever grows: the methods of the dispatcher keep what is
    registered, so it is empty exactly while no driver has registered. *)
Lemma registered_forever (w : World) (x : nat) :
  Dispatcher._drivers (dispatcher w)
    `prefix_of` Dispatcher._drivers (dispatcher (snd (request_rider x w))) /\
  Dispatcher._drivers (dispatcher (snd (request_driver x w)))
    = Dispatcher._drivers (dispatcher w) /\
  Dispatcher._drivers (dispatcher (snd (cancel_ride x w)))
    = Dispatcher._drivers (dispatcher w).
Proof.
  split; [|split].
  - unfold request_rider.
    destruct (negb _); simpl;
      [destruct (Dispatcher._riders (dispatcher w))
      |destruct (Dispatcher._riders (dispatcher w))]; simpl;
      first [reflexivity | apply prefix_app_r; reflexivity].
  - unfold request_driver. destruct (bool_decide _); reflexivity.
  - unfold cancel_ride. destruct (existsb _ _); reflexivity.
Qed.

(** C6. [request_driver] appends the rider to the waitlist exactly when no
    driver is registered, and then returns none; with a driver registered
    the waitlist, like the whole world, is left as it was, and none is
    returned when no registered driver is idle.  Whatever it returns or
    raises, every driver, every rider, the monitor and the registered
    drivers are unchanged. *)
Theorem request_driver_waitlist_and_frame (rider : nat) (w : World) :
  exists res w',
    request_driver rider w = (res, w') /\
    drivers w' = drivers w /\ riders w' = riders w /\
    monitor w' = monitor w /\
    Dispatcher._drivers (dispatcher w') = Dispatcher._drivers (dispatcher w) /\
    (Dispatcher._drivers (dispatcher w) = [] ->
       res = Ok None /\
       Dispatcher._riders (dispatcher w')
         = Dispatcher._riders (dispatcher w) ++ [rider]) /\
    (Dispatcher._drivers (dispatcher w) <> [] ->
       Dispatcher._riders (dispatcher w') = Dispatcher._riders (dispatcher w)
       /\ w' = w) /\
    (Dispatcher._drivers (dispatcher w) <> [] ->
       (forall d, d ∈ Dispatcher._drivers (dispatcher w) ->
                  Driver.is_idle (drivers w d) = false) ->
       res = Ok None).
Proof.
  unfold request_driver.
  destruct (Dispatcher._drivers (dispatcher w)) as [|d ds] eqn:E; simpl.
  - eexists _, _. split; [reflexivity|]. simpl.
    do 4 (split; [first [reflexivity | exact E | symmetry; exact E]|]).
    split; [intros _; split; reflexivity|].
    split; intros Hne; exfalso; apply Hne; reflexivity.
  - eexists _, _. split; [reflexivity|].
    do 4 (split; [first [reflexivity | exact E | symmetry; exact E]|]).
    split; [discriminate|].
    split; [intros _; split; reflexivity|].
    intros _ Hbusy.
    exact (scan_drivers_none_idle w _ (d :: ds) Hbusy (-1) None).
Qed.

Lemma request_driver_waitlist_and_frame_witness :
  (exists w',
     request_driver 0 (new_simulation r1 d1) = (Ok None, w') /\
     Dispatcher._riders (dispatcher w') = [O]) /\
  request_driver 0 after_pickup = (Ok None, after_pickup).
Proof.
  split.
  - destruct (request_driver_waitlist_and_frame 0 (new_simulation r1 d1))
      as (res & w' & E & _ & _ & _ & _ & Hempty & _).
    destruct (Hempty eq_refl) as [-> Hq].
    exists w'. split; [exact E | rewrite Hq; reflexivity].
  - destruct (request_driver_waitlist_and_frame 0 after_pickup)
      as (res & w' & E & _ & _ & _ & _ & _ & Hsame & Hbusy).
    assert (Hne : Dispatcher._drivers (dispatcher after_pickup) <> [])
      by discriminate.
    destruct (Hsame Hne) as [_ ->].
    rewrite (Hbusy Hne) in E; [exact E|].
    intros d Hd. apply list_elem_of_singleton in Hd as ->. reflexivity.
Defined.


(** The driver d1 is registered and drives to r1's origin: a second request
    from there is answered with the same driver. *)
Example driving_driver_is_assigned_again :
  let w0 := snd (request_rider 0 (new_simulation r1 d1)) in
  let w1 := snd (call 0 (fun self => Driver.start_drive self (Rider.origin r1)) w0) in
  fst (request_driver 0 w0) = Ok (Some O) /\
  Driver._destination (drivers w1 0) = Some (Rider.origin r1) /\
  Driver.is_idle (drivers w1 0) = true /\
  fst (request_driver 0 w1) = Ok (Some O).
Proof. vm_compute. repeat split; reflexivity. Qed.

(** *** Greedy nearest idle driver *)

Lemma manhattan_distance_nonneg a b : 0 <= manhattan_distance a b.
Proof. unfold manhattan_distance. lia. Qed.

(** Where it needs no rounding, the travel time computed is the floor. *)
Lemma get_travel_time_floor self origin t :
  exact_travel_time self origin ->
  Driver.get_travel_time self origin = Ok t <->
  floor_travel_time self origin t.
Proof.
  intros (here & Hloc & Hspeed & Hdist).
  pose proof (manhattan_distance_nonneg here origin) as Hd.
  unfold Driver.get_travel_time, floor_travel_time.
  rewrite Hloc; simpl.
  rewrite int_true_div_small by lia.
  split.
  - intros [= <-]. exists here. split; reflexivity.
  - intros (h & [= <-] & ->). reflexivity.
Qed.

Lemma chosen_skip_busy w origin pre d min_time driver :
  Driver.is_idle (drivers w d) = false ->
  chosen w origin pre min_time driver ->
  chosen w origin (pre ++ [d]) min_time driver.
Proof.
  intros Hbusy. destruct driver as [d0|]; simpl.
  - intros (l1 & l2 & -> & Hidle & Ht & Hpos & Hl1 & Hl2).
    exists l1, (l2 ++ [d]). rewrite <- app_assoc. simpl.
    repeat (split; [first [reflexivity | assumption]|]).
    intros x t Hx Hix Htx. apply elem_of_app in Hx as [Hx|Hx].
    + exact (Hl2 x t Hx Hix Htx).
    + apply list_elem_of_singleton in Hx as ->. congruence.
  - intros [-> Hall]. split; [reflexivity|].
    intros x Hx. apply elem_of_app in Hx as [Hx|Hx]; [exact (Hall x Hx)|].
    apply list_elem_of_singleton in Hx as ->. exact Hbusy.
Qed.

Lemma scan_drivers_chosen w origin ds : forall pre min_time driver,
  (forall x, x ∈ ds -> Driver.is_idle (drivers w x) = true ->
             exists t, Driver.get_travel_time (drivers w x) origin = Ok t /\
                       0 <= t) ->
  chosen w origin pre min_time driver ->
  exists min_time' r,
    scan_drivers w origin ds min_time driver = Ok r /\
    chosen w origin (pre ++ ds) min_time' r.
Proof.
  induction ds as [|d ds IH]; intros pre min_time driver Hwf Hch.
  - exists min_time, driver. rewrite app_nil_r. split; [reflexivity|exact Hch].
  - assert (Hwf' : forall x, x ∈ ds ->
              Driver.is_idle (drivers w x) = true ->
              exists t, Driver.get_travel_time (drivers w x) origin = Ok t /\
                        0 <= t)
      by (intros x Hx; apply Hwf; right; exact Hx).
    replace (pre ++ d :: ds) with ((pre ++ [d]) ++ ds)
      by (rewrite <- app_assoc; reflexivity).
    simpl. destruct (Driver.is_idle (drivers w d)) eqn:Hidle.
    2:{ apply IH; [exact Hwf'|]. apply chosen_skip_busy; assumption. }
    destruct (Hwf d ltac:(left) Hidle) as (t & Ht & Hpos).
    rewrite Ht; simpl.
    destruct (Z.eqb_spec min_time (-1)) as [Hm|Hm].
    + (* d is the first idle driver *)
      apply IH; [exact Hwf'|].
      destruct driver as [d0|]; simpl in Hch.
      { destruct Hch as (? & ? & _ & _ & _ & Hpos0 & _). lia. }
      destruct Hch as [_ Hall].
      exists pre, []. repeat (split; [first [reflexivity | assumption]|]).
      split.
      * intros x tx Hx Hix _. rewrite (Hall x Hx) in Hix. discriminate.
      * intros x tx Hx. inversion Hx.
    + destruct driver as [d0|]; simpl in Hch; [|destruct Hch; lia].
      destruct Hch as (l1 & l2 & -> & Hidle0 & Ht0 & Hpos0 & Hl1 & Hl2).
      destruct (Z.gtb_spec min_time t) as [Hlt|Hge].
      * (* d is strictly nearer than everything before it *)
        apply IH; [exact Hwf'|].
        exists (l1 ++ d0 :: l2), [].
        repeat (split; [first [reflexivity | assumption]|]).
        split.
        -- intros x tx Hx Hix Htx.
           apply elem_of_app in Hx as [Hx|Hx];
             [specialize (Hl1 x tx Hx Hix Htx); lia|].
           apply elem_of_cons in Hx as [->|Hx].
           ++ rewrite Ht0 in Htx. injection Htx as <-. lia.
           ++ specialize (Hl2 x tx Hx Hix Htx). lia.
        -- intros x tx Hx. inversion Hx.
      * (* the driver found so far is kept *)
        apply IH; [exact Hwf'|].
        exists l1, (l2 ++ [d]). rewrite <- app_assoc. simpl.
        repeat (split; [first [reflexivity | assumption]|]).
        intros x tx Hx Hix Htx. apply elem_of_app in Hx as [Hx|Hx].
        -- exact (Hl2 x tx Hx Hix Htx).
        -- apply list_elem_of_singleton in Hx as ->.
           rewrite Ht in Htx. injection Htx as <-. lia.
Qed.

(** The loop stops at the first idle driver whose travel time raises. *)
Lemma scan_drivers_raises w origin x l2 e l1 : forall min_time driver,
  Driver.is_idle (drivers w x) = true ->
  Driver.get_travel_time (drivers w x) origin = Raise e ->
  (forall y, y ∈ l1 -> Driver.is_idle (drivers w y) = true ->
             exists t, Driver.get_travel_time (drivers w y) origin = Ok t) ->
  scan_drivers w origin (l1 ++ x :: l2) min_time driver = Raise e.
Proof.
  induction l1 as [|y l1 IH]; intros min_time driver Hidle Hx Hl1; simpl.
  - rewrite Hidle, Hx. destruct (min_time =? -1); reflexivity.
  - assert (Hl1' : forall z, z ∈ l1 ->
              Driver.is_idle (drivers w z) = true ->
              exists t, Driver.get_travel_time (drivers w z) origin = Ok t)
      by (intros z Hz; apply Hl1; right; exact Hz).
    destruct (Driver.is_idle (drivers w y)) eqn:Hy;
      [|apply IH; assumption].
    destruct (Hl1 y ltac:(left) Hy) as (t & ->). simpl.
    destruct (min_time =? -1); [apply IH; assumption|].
    destruct (min_time >? t); apply IH; assumption.
Qed.

(** C3, as the spec states it, fails.  The drivers "A" at (0,0) and "B" at
    (1,0) are idle, registered in this order, and have speed 1; the rider
    asks from (2^53 + 1, 0).  floor(distance / speed) is 2^53 + 1 for "A"
    and 2^53 for "B", so "B" is the nearest; [int(distance / speed)] is
    2^53 for both, since the double nearest to 2^53 + 1 is 2^53, and
    [request_driver] returns "A". *)
Lemma request_driver_not_floor_nearest :
  Dispatcher._drivers (dispatcher far_rider) = [0; 1]%nat /\
  Driver.is_idle (drivers far_rider 0) = true /\
  Driver.is_idle (drivers far_rider 1) = true /\
  floor_travel_time (drivers far_rider 0) (Rider.origin (riders far_rider 0))
    (2 ^ 53 + 1) /\
  floor_travel_time (drivers far_rider 1) (Rider.origin (riders far_rider 0))
    (2 ^ 53) /\
  Driver.get_travel_time (drivers far_rider 0)
    (Rider.origin (riders far_rider 0)) = Ok (2 ^ 53) /\
  Driver.get_travel_time (drivers far_rider 1)
    (Rider.origin (riders far_rider 0)) = Ok (2 ^ 53) /\
  request_driver 0 far_rider = (Ok (Some 0%nat), far_rider).
Proof.
  split; [reflexivity|]. split; [reflexivity|]. split; [reflexivity|].
  split; [eexists; split; [reflexivity | vm_compute; reflexivity]|].
  split; [eexists; split; [reflexivity | vm_compute; reflexivity]|].
  split; [vm_compute; reflexivity|].
  split; vm_compute; reflexivity.
Qed.

(** C3, amended.  When some registered driver is idle (so the registered
    sequence is non-empty), [request_driver] changes nothing and:
    - it raises what [get_travel_time] raises for the first idle registered
      driver for which it raises (no location, speed 0, or a quotient too
      large for a float);
    - when [get_travel_time] returns a time that is not negative for every
      idle registered driver, it returns an idle registered driver whose
      travel time is strictly smaller than that of every idle driver
      registered before it and not larger than that of any idle driver
      registered after it: the nearest one, and the earliest registered
      among the nearest;
    - the travel time is [int(distance / speed)], with Python's division
      through a double; it is floor(manhattan_distance(location,
      rider.origin) / speed) for every driver with a location, a positive
      speed, and distance and speed below 2^53. *)
Theorem request_driver_greedy_nearest (rider : nat) (w : World) :
  (exists x, x ∈ Dispatcher._drivers (dispatcher w) /\
             Driver.is_idle (drivers w x) = true) ->
  let origin := Rider.origin (riders w rider) in
  (forall l1 x l2 e,
     Dispatcher._drivers (dispatcher w) = l1 ++ x :: l2 ->
     Driver.is_idle (drivers w x) = true ->
     Driver.get_travel_time (drivers w x) origin = Raise e ->
     (forall y, y ∈ l1 -> Driver.is_idle (drivers w y) = true ->
        exists t, Driver.get_travel_time (drivers w y) origin = Ok t) ->
     request_driver rider w = (Raise e, w)) /\
  ((forall x, x ∈ Dispatcher._drivers (dispatcher w) ->
      Driver.is_idle (drivers w x) = true ->
      exists t, Driver.get_travel_time (drivers w x) origin = Ok t /\
                0 <= t) ->
   exists l1 d l2 t,
     Dispatcher._drivers (dispatcher w) = l1 ++ d :: l2 /\
     request_driver rider w = (Ok (Some d), w) /\
     Driver.is_idle (drivers w d) = true /\
     Driver.get_travel_time (drivers w d) origin = Ok t /\
     (forall x t', x ∈ l1 -> Driver.is_idle (drivers w x) = true ->
        Driver.get_travel_time (drivers w x) origin = Ok t' -> t < t') /\
     (forall x t', x ∈ l2 -> Driver.is_idle (drivers w x) = true ->
        Driver.get_travel_time (drivers w x) origin = Ok t' -> t <= t')) /\
  (forall x t,
     exact_travel_time (drivers w x) origin ->
     Driver.get_travel_time (drivers w x) origin = Ok t <->
     floor_travel_time (drivers w x) origin t).
Proof.
  intros (x0 & Hx0 & Hidle0) origin.
  assert (Hreq : request_driver rider w
                 = (scan_drivers w origin (Dispatcher._drivers (dispatcher w))
                      (-1) None, w)).
  { unfold request_driver. cbv zeta.
    rewrite bool_decide_eq_false_2; [reflexivity|].
    intros Hlen. apply nil_length_inv in Hlen.
    rewrite Hlen in Hx0. inversion Hx0. }
  split; [|split].
  - intros l1 x l2 e Hsplit Hidle Hx Hl1.
    rewrite Hreq, Hsplit.
    rewrite (scan_drivers_raises w origin x l2 e l1 (-1) None Hidle Hx Hl1).
    reflexivity.
  - intros Htimes.
    destruct (scan_drivers_chosen w origin (Dispatcher._drivers (dispatcher w))
                [] (-1) None Htimes) as (mt & r & Hscan & Hch).
    { split; [reflexivity|]. intros x Hx. inversion Hx. }
    simpl in Hch. destruct r as [d|]; simpl in Hch.
    2:{ destruct Hch as [_ Hall]. rewrite (Hall x0 Hx0) in Hidle0.
        discriminate. }
    destruct Hch as (l1 & l2 & Hsplit & Hidle & Ht & _ & Hl1 & Hl2).
    exists l1, d, l2, mt.
    split; [exact Hsplit|].
    split; [rewrite Hreq, Hscan; reflexivity|].
    split; [exact Hidle|]. split; [exact Ht|].
    split; [exact Hl1 | exact Hl2].
  - intros x t. apply get_travel_time_floor.
Qed.

Lemma request_driver_greedy_nearest_witness :
  fst (request_driver 0 three_drivers) = Ok (Some 2%nat).
Proof.
  destruct (request_driver_greedy_nearest 0 three_drivers)
    as (_ & Hnearest & _).
  - exists 1%nat. split; [right; left | reflexivity].
  - destruct Hnearest as (l1 & d & l2 & t & _ & E & _).
    + intros x Hx _. simpl in Hx.
      repeat (apply elem_of_cons in Hx as [->|Hx]); [| | |inversion Hx];
        (eexists; split; [vm_compute; reflexivity | lia]).
    + assert (H : fst (request_driver 0 three_drivers) = Ok (Some 2%nat))
        by (vm_compute; reflexivity).
      rewrite E in H. rewrite E. exact H.
Defined.

(** ** [Monitor.report] *)

Lemma elem_of_values (d : gmap string (list Monitor.Activity)) log :
  log ∈ Monitor.values d <-> exists i, d !! i = Some log.
Proof.
  unfold Monitor.values. rewrite list_elem_of_fmap. split.
  - intros ([i x] & -> & Hin). exists i. apply elem_of_map_to_list. exact Hin.
  - intros (i & Hi). exists (i, log). split; [reflexivity|].
    apply elem_of_map_to_list. exact Hi.
Qed.

Lemma fold_wait_unresolved l :
  (forall log, log ∈ l -> (length log < 2)%nat) ->
  forall acc, fold_left Monitor.wait_step l acc = acc.
Proof.
  induction l as [|log l IH]; intros Hl acc; simpl; [reflexivity|].
  rewrite IH by (intros x Hx; apply Hl; right; exact Hx).
  specialize (Hl log ltac:(left)).
  destruct log as [|a0 [|a1 rest]]; simpl in *; try reflexivity; lia.
Qed.

Lemma fold_wait_count_le l : forall acc,
  (snd acc <= snd (fold_left Monitor.wait_step l acc))%nat.
Proof.
  induction l as [|log l IH]; intros acc; simpl; [lia|].
  etransitivity; [|apply IH].
  destruct log as [|a0 [|a1 rest]]; simpl; lia.
Qed.

Lemma fold_wait_resolved l :
  (exists log, log ∈ l /\ (2 <= length log)%nat) ->
  forall acc, (snd acc < snd (fold_left Monitor.wait_step l acc))%nat.
Proof.
  induction l as [|log l IH]; intros (x & Hx & Hlen) acc.
  - inversion Hx.
  - simpl. apply elem_of_cons in Hx as [->|Hx].
    + eapply Nat.lt_le_trans; [|apply fold_wait_count_le].
      destruct log as [|a0 [|a1 rest]]; simpl in *; lia.
    + eapply Nat.le_lt_trans; [|apply IH; exists x; split; assumption].
      destruct log as [|a0 [|a1 rest]]; simpl; lia.
Qed.

Lemma leg_located a b :
  located a = true -> located b = true -> exists d, Monitor.leg a b = Ok d.
Proof.
  unfold located, Monitor.leg.
  destruct (Monitor.location a), (Monitor.location b); try discriminate.
  intros _ _. eexists. reflexivity.
Qed.

Lemma total_scan_step distance a0 a1 a2 rest :
  Monitor.total_scan distance (a0 :: a1 :: a2 :: rest)
  = (distance <~
       (if bool_decide (Monitor.description a0 = Monitor.REQUEST) then
          d1 <~ Monitor.leg a0 a1 ;;
          let distance := distance + d1 in
          if bool_decide (Monitor.description a2 = Monitor.DROPOFF) then
            d2 <~ Monitor.leg a1 a2 ;;
            Ok (distance + d2)
          else Ok distance
        else Ok distance) ;;
     Monitor.total_scan distance (a1 :: a2 :: rest)).
Proof. reflexivity. Qed.

Lemma ride_scan_step distance a0 a1 rest :
  Monitor.ride_scan distance (a0 :: a1 :: rest)
  = (distance <~
       (if bool_decide (Monitor.description a0 = Monitor.PICKUP) &&
           bool_decide (Monitor.description a1 = Monitor.DROPOFF) then
          d <~ Monitor.leg a0 a1 ;;
          Ok (distance + d)
        else Ok distance) ;;
     Monitor.ride_scan distance (a1 :: rest)).
Proof. reflexivity. Qed.

Lemma total_scan_located log :
  forallb located log = true ->
  forall distance, exists d, Monitor.total_scan distance log = Ok d.
Proof.
  induction log as [|a0 log IH]; intros Hloc distance;
    [eexists; reflexivity|].
  destruct log as [|a1 [|a2 rest]]; try (eexists; reflexivity).
  rewrite total_scan_step.
  simpl in Hloc. apply andb_prop in Hloc as [H0 Hloc].
  pose proof Hloc as Htail.
  apply andb_prop in Hloc as [H1 Hloc]. apply andb_prop in Hloc as [H2 _].
  destruct (leg_located a0 a1 H0 H1) as (x1 & E1).
  destruct (leg_located a1 a2 H1 H2) as (x2 & E2).
  rewrite E1, E2.
  destruct (bool_decide (Monitor.description a0 = Monitor.REQUEST));
    [destruct (bool_decide (Monitor.description a2 = Monitor.DROPOFF))|];
    simpl res_bind; apply IH; exact Htail.
Qed.

Lemma ride_scan_located log :
  forallb located log = true ->
  forall distance, exists d, Monitor.ride_scan distance log = Ok d.
Proof.
  induction log as [|a0 log IH]; intros Hloc distance;
    [eexists; reflexivity|].
  destruct log as [|a1 rest]; [eexists; reflexivity|].
  rewrite ride_scan_step.
  simpl in Hloc. apply andb_prop in Hloc as [H0 Hloc].
  pose proof Hloc as Htail.
  apply andb_prop in Hloc as [H1 _].
  destruct (leg_located a0 a1 H0 H1) as (x1 & E1). rewrite E1.
  destruct (bool_decide (Monitor.description a0 = Monitor.PICKUP) &&
            bool_decide (Monitor.description a1 = Monitor.DROPOFF));
    simpl res_bind; apply IH; exact Htail.
Qed.

Lemma for_each_located (body : Z -> list Monitor.Activity -> Res Z) l :
  (forall log, forallb located log = true ->
     forall s, exists s', body s log = Ok s') ->
  forallb (forallb located) l = true ->
  forall s, exists s', Monitor.for_each body l s = Ok s'.
Proof.
  intros Hbody. induction l as [|log l IH]; intros Hl s; simpl;
    [eexists; reflexivity|].
  simpl in Hl. apply andb_prop in Hl as [Hlog Hl].
  destruct (Hbody log Hlog s) as (s' & E). rewrite E. simpl.
  apply IH. exact Hl.
Qed.

Lemma average_wait_time_faults m e :
  Monitor._average_wait_time m = Raise e ->
  e = ZeroDivisionError \/ e = OverflowError.
Proof.
  unfold Monitor._average_wait_time. intros H.
  destruct (float_true_div_raises _ _ _ H) as [[-> _]|[-> _]];
    [left | right]; reflexivity.
Qed.

Lemma average_distance_faults distance n e :
  (0 < n)%nat -> float_true_div distance n = Raise e -> e = OverflowError.
Proof.
  intros Hn H. destruct (float_true_div_raises _ _ _ H) as [[_ ->]|[-> _]];
    [lia | reflexivity].
Qed.

(** C8, as stated, fails.  [Simulation.run] on DriverRequest(0, d at (0,0),
    speed 1), RiderRequest(1, a from (5,0), patience 1) and RiderRequest(3,
    b from (9,0), patience 1) processes nine events without a fault (no two
    queued events ever share a timestamp):
    - 0: d registers; 1: a is assigned d, Pickup(6), Cancellation(2);
      2: a cancels;
    - 3: b is assigned d as well, which is still flagged idle, Pickup(12),
      Cancellation(4); 4: b cancels;
    - 6: Pickup of a ends d's drive at (9,0), DriverRequest(6) finds no
      rider;
    - 12: Pickup of b ends a drive without pending destination: d's
      location, and the PICKUP and REQUEST activities logged for it, are
      none.
    Rider "a" then has two activities, driver "d" has a log, and [report]
    raises AttributeError on the REQUEST at (9,0) followed by the PICKUP
    without location. *)
Lemma report_faults_without_location :
  exists w,
    run PriorityQueue.FIFO 9
      [DriverRequest 0 0; RiderRequest 1 0; RiderRequest 3 1%nat]
      two_riders_one_driver = Some (Raise AttributeError, w) /\
    (fst <$> run PriorityQueue.LIFO 9
       [DriverRequest 0 0; RiderRequest 1 0; RiderRequest 3 1%nat]
       two_riders_one_driver) = Some (Raise AttributeError) /\
    (length <$> Monitor.rider_log (monitor w) !! "a") = Some 2%nat /\
    Monitor.driver_log (monitor w) !! "d"
    = Some
        [Monitor.Activity_init 0 Monitor.REQUEST "d"
           (Some (Location.Location 0 0));
         Monitor.Activity_init 6 Monitor.PICKUP "d"
           (Some (Location.Location 9 0));
         Monitor.Activity_init 6 Monitor.REQUEST "d"
           (Some (Location.Location 9 0));
         Monitor.Activity_init 12 Monitor.PICKUP "d" None;
         Monitor.Activity_init 12 Monitor.REQUEST "d" None] /\
    Monitor.report (monitor w) = Raise AttributeError.
Proof.
  eexists. split; [vm_compute; reflexivity|].
  vm_compute. repeat split; reflexivity.
Qed.

(** C8, amended.  [report] raises ZeroDivisionError when no rider has two
    logged activities.  When no driver has a log it raises too:
    ZeroDivisionError, or OverflowError if the average wait time is too
    large for a float.  When some rider has two or more activities, some
    driver has a log and every logged driver activity has a location, it
    raises neither ZeroDivisionError nor AttributeError: it returns the
    three averages, or raises OverflowError because one of them is too
    large for a float; it returns them whenever the total wait and the two
    total distances are below 2^1023 in magnitude. *)
Theorem report_faults_and_averages (m : Monitor.t) :
  ((forall i log, Monitor.rider_log m !! i = Some log -> (length log < 2)%nat)
   -> Monitor.report m = Raise ZeroDivisionError) /\
  (Monitor.driver_log m = ∅ ->
   Monitor.report m = Raise ZeroDivisionError \/
   (Monitor._average_wait_time m = Raise OverflowError /\
    Monitor.report m = Raise OverflowError)) /\
  ((exists i log, Monitor.rider_log m !! i = Some log /\
                  (2 <= length log)%nat) ->
   Monitor.driver_log m <> ∅ ->
   drivers_located m = true ->
   (Monitor.report m = Raise OverflowError \/
    exists rep, Monitor.report m = Ok rep) /\
   (sums_in_float_range m ->
    exists w t r,
      Monitor._average_wait_time m = Ok w /\
      Monitor._average_total_distance m = Ok t /\
      Monitor._average_ride_distance m = Ok r /\
      Monitor.report m
        = Ok {| Monitor.rider_wait_time := w;
                Monitor.driver_total_distance := t;
                Monitor.driver_ride_distance := r |})).
Proof.
  split; [|split].
  - intros Hnone. unfold Monitor.report, Monitor._average_wait_time. simpl.
    rewrite fold_wait_unresolved; [reflexivity|].
    intros log Hlog. apply elem_of_values in Hlog as (i & Hi).
    exact (Hnone i log Hi).
  - intros Hempty. unfold Monitor.report.
    destruct (Monitor._average_wait_time m) as [w|e] eqn:Ew; simpl.
    + left. unfold Monitor._average_total_distance, Monitor.values; simpl.
      rewrite Hempty, map_to_list_empty, map_size_empty. reflexivity.
    + destruct (average_wait_time_faults m e Ew) as [-> | ->];
        [left; reflexivity | right; split; reflexivity].
  - intros (i & log & Hi & Hlen) Hlogged Hloc.
    assert (Hcount : (0 < snd (fold_left Monitor.wait_step
                                 (Monitor.values (Monitor.rider_log m))
                                 (0%Z, O)))%nat).
    { eapply Nat.le_lt_trans;
        [|apply fold_wait_resolved; exists log; split;
          [apply elem_of_values; exists i; exact Hi | exact Hlen]].
      simpl. lia. }
    assert (Hsize : (0 < size (Monitor.driver_log m))%nat).
    { apply map_size_non_empty_iff in Hlogged. lia. }
    destruct (for_each_located Monitor.total_scan _
                (fun log H s => total_scan_located log H s) Hloc 0)
      as (st & Est).
    destruct (for_each_located Monitor.ride_scan _
                (fun log H s => ride_scan_located log H s) Hloc 0)
      as (sr & Esr).
    assert (Et : Monitor._average_total_distance m
                 = float_true_div st (size (Monitor.driver_log m))).
    { unfold Monitor._average_total_distance. simpl. rewrite Est.
      reflexivity. }
    assert (Er : Monitor._average_ride_distance m
                 = float_true_div sr (size (Monitor.driver_log m))).
    { unfold Monitor._average_ride_distance. simpl. rewrite Esr.
      reflexivity. }
    split.
    + unfold Monitor.report. rewrite Et, Er.
      destruct (Monitor._average_wait_time m) as [w|e] eqn:Ew; simpl.
      2:{ left. unfold Monitor._average_wait_time in Ew.
          destruct (float_true_div_raises _ _ _ Ew) as [[_ H0]|[-> _]];
            [simpl in H0; lia | reflexivity]. }
      destruct (float_true_div st _) as [t|e] eqn:E1; simpl.
      2:{ left. rewrite (average_distance_faults _ _ e Hsize E1).
          reflexivity. }
      destruct (float_true_div sr _) as [r|e] eqn:E2; simpl.
      2:{ left. rewrite (average_distance_faults _ _ e Hsize E2).
          reflexivity. }
      right. eexists. reflexivity.
    + intros (Hw & Ht & Hr). simpl in Ht, Hr. rewrite Est in Ht.
      rewrite Esr in Hr.
      destruct (float_true_div_in_range _ _ Hcount Hw) as (w & Ew).
      destruct (float_true_div_in_range st _ Hsize Ht) as (t & E1).
      destruct (float_true_div_in_range sr _ Hsize Hr) as (r & E2).
      exists w, t, r. unfold Monitor.report. rewrite Et, Er.
      unfold Monitor._average_wait_time. simpl. rewrite Ew, E1, E2.
      repeat split; reflexivity.
Qed.

Lemma report_faults_and_averages_witness :
  Monitor.report Monitor.init = Raise ZeroDivisionError /\
  exists w t r,
    Monitor.report reference_monitor
    = Ok {| Monitor.rider_wait_time := w;
            Monitor.driver_total_distance := t;
            Monitor.driver_ride_distance := r |}.
Proof.
  split.
  - apply (proj1 (report_faults_and_averages Monitor.init)).
    intros i log H. simpl in H. rewrite lookup_empty in H. discriminate H.
  - destruct (proj2 (proj2 (report_faults_and_averages reference_monitor)))
      as (_ & Hreturns).
    + exists "r1". eexists. split; [vm_compute; reflexivity|]. simpl. lia.
    + intros H. apply (f_equal (fun d => d !! "d1")) in H.
      vm_compute in H. discriminate H.
    + vm_compute. reflexivity.
    + destruct Hreturns as (w & t & r & _ & _ & _ & E).
      * vm_compute. repeat split; reflexivity.
      * exists w, t, r. exact E.
Defined.

(** * Further properties of the sources *)

(** ** [manhattan_distance] and [get_travel_time] *)

(** X1. [manhattan_distance] is a metric on locations: it is never
    negative, zero exactly between equal locations, symmetric, and obeys
    the triangle inequality. *)
Theorem manhattan_distance_metric (a b c : Location) :
  0 <= manhattan_distance a b /\
  (manhattan_distance a b = 0 <-> a = b) /\
  manhattan_distance a b = manhattan_distance b a /\
  manhattan_distance a c <= manhattan_distance a b + manhattan_distance b c.
Proof.
  destruct a as [ar ac], b as [br bc], c as [cr cc].
  unfold manhattan_distance; simpl.
  repeat split; try lia.
  - intros H. f_equal; lia.
  - intros H. injection H as -> ->. lia.
Qed.

(** X2. For a driver with a location and a positive speed, distance and
    speed being below 2^53, [get_travel_time] is the distance divided by
    the speed, rounded down (not to the nearest integer): the time [t] it
    returns satisfies [t * speed <= distance < (t + 1) * speed], so
    [0 <= t <= distance]. *)
Theorem get_travel_time_rounds_down (self : Driver.t) (here dest : Location) :
  Driver.location self = Some here ->
  0 < Driver._speed self < 2 ^ 53 ->
  manhattan_distance here dest < 2 ^ 53 ->
  exists t,
    Driver.get_travel_time self dest = Ok t /\
    t * Driver._speed self <= manhattan_distance here dest /\
    manhattan_distance here dest < (t + 1) * Driver._speed self /\
    0 <= t <= manhattan_distance here dest.
Proof.
  intros Hloc Hspeed Hdist.
  pose proof (manhattan_distance_nonneg here dest) as Hd.
  unfold Driver.get_travel_time. rewrite Hloc. simpl.
  rewrite int_true_div_small by lia.
  eexists. split; [reflexivity|].
  set (d := manhattan_distance here dest) in *.
  set (s := Driver._speed self) in *.
  destruct Hspeed as [Hspeed _].
  pose proof (Z.mul_div_le d s Hspeed).
  pose proof (Z.mul_succ_div_gt d s Hspeed).
  assert (0 <= d / s) by (apply Z.div_pos; lia).
  assert (d / s <= d) by (apply Z.div_le_upper_bound; nia).
  repeat split; nia.
Qed.

Lemma get_travel_time_rounds_down_witness :
  Driver.get_travel_time (Driver.init "Bob" (Location.Location 5 5) 10)
    (Location.Location 14 15) = Ok 1.
Proof.
  destruct (get_travel_time_rounds_down
              (Driver.init "Bob" (Location.Location 5 5) 10)
              (Location.Location 5 5) (Location.Location 14 15)
              eq_refl) as (t & E & Hlo & Hhi & _);
    [split; reflexivity | reflexivity |].
  rewrite E. f_equal.
  unfold Location.manhattan_distance in Hlo, Hhi. simpl in Hlo, Hhi. lia.
Defined.

(** ** Comparing events *)

(** X3. The six comparisons of [Event] agree with each other and look at
    timestamps only: exactly one of [a < b], [a == b], [a > b] holds,
    [a <= b] is [a < b or a == b], [a > b] is [b < a], [a >= b] is
    [b <= a], [a != b] is the negation of [a == b], and two events
    are equal as soon as their timestamps are, whatever their kinds,
    riders and drivers. *)
Theorem event_comparisons_agree (a b : Event) :
  (Event_eq a b = true <-> timestamp a = timestamp b) /\
  Event_le a b = Event_lt a b || Event_eq a b /\
  Event_gt a b = Event_lt b a /\
  Event_ge a b = Event_le b a /\
  Event_ne a b = Event_lt a b || Event_gt a b /\
  ((Event_lt a b = true /\ Event_eq a b = false /\ Event_gt a b = false) \/
   (Event_lt a b = false /\ Event_eq a b = true /\ Event_gt a b = false) \/
   (Event_lt a b = false /\ Event_eq a b = false /\ Event_gt a b = true)).
Proof.
  unfold Event_ne, Event_gt, Event_ge, Event_eq, Event_le, Event_lt.
  destruct (Z.eqb_spec (timestamp a) (timestamp b)),
           (Z.ltb_spec (timestamp a) (timestamp b)),
           (Z.leb_spec (timestamp a) (timestamp b)),
           (Z.ltb_spec (timestamp b) (timestamp a)),
           (Z.leb_spec (timestamp b) (timestamp a));
    try lia; simpl;
    (split; [split; first [reflexivity | discriminate | lia]|]);
    do 4 (split; [reflexivity|]);
    first [left; repeat split; reflexivity
          |right; left; repeat split; reflexivity
          |right; right; repeat split; reflexivity].
Qed.

(** ** [Queue] *)

Lemma remove_first_split {A} (p : A -> bool) (l : list A) :
  existsb p l = true ->
  exists l1 x l2,
    l = l1 ++ x :: l2 /\ p x = true /\
    (forall y, y ∈ l1 -> p y = false) /\
    remove_first p l = l1 ++ l2.
Proof.
  induction l as [|y l IH]; simpl; [discriminate|].
  destruct (p y) eqn:Hy; simpl.
  - intros _. exists [], y, l. repeat split; try assumption.
    intros z Hz. inversion Hz.
  - intros H. destruct (IH H) as (l1 & x & l2 & -> & Hx & Hl1 & Hrm).
    exists (y :: l1), x, l2. rewrite Hrm. repeat split; try assumption.
    intros z Hz. apply elem_of_cons in Hz as [->|Hz]; [exact Hy|].
    exact (Hl1 z Hz).
Qed.

(** X4. [Queue.pop_] takes away the item added last, not the first one,
    and returns nothing: after [add(x)] it gives back exactly the queue
    there was before, so the first item of a longer queue stays.  A queue
    is not empty after [add], and [pop_] on an empty queue raises
    IndexError. *)
Theorem queue_pop_undoes_add {A} `{EqDecision A} (x : A) (q : Queue.t) :
  Queue.pop_ (snd (Queue.add x q)) = inr (tt, q) /\
  Queue.is_empty (snd (Queue.add x q)) = false /\
  Queue.pop_ (@Queue.init A) = inl Queue.IndexError /\
  Queue.is_empty (@Queue.init A) = true.
Proof.
  unfold Queue.add, Queue.pop_, Queue.is_empty, Queue.init. simpl.
  split; [|split; [|split; reflexivity]].
  - destruct (q ++ [x]) as [|y l] eqn:E.
    + destruct q; discriminate.
    + rewrite <- E, removelast_last. reflexivity.
  - rewrite length_app. simpl. apply bool_decide_eq_false_2. lia.
Qed.

(** X5. [Queue.remove(item)] raises ValueError when no item of the queue
    equals [item]; otherwise it removes the first such item and nothing
    else, keeping the order of the others. *)
Theorem queue_remove_first_occurrence {A} `{EqDecision A} (x : A)
    (q : Queue.t) :
  (x ∉ q -> Queue.remove x q = inl Queue.ValueError) /\
  (x ∈ q ->
   exists l1 l2, q = l1 ++ x :: l2 /\ (x ∉ l1) /\
                 Queue.remove x q = inr (tt, l1 ++ l2)).
Proof.
  unfold Queue.remove.
  destruct (existsb (fun y => bool_decide (y = x)) q) eqn:E; split.
  - intros Hnot. apply existsb_exists in E as (y & Hy & Hyx).
    apply bool_decide_eq_true_1 in Hyx as ->.
    exfalso. apply Hnot. apply list_elem_of_In. exact Hy.
  - intros _.
    destruct (remove_first_split _ q E) as (l1 & y & l2 & -> & Hy & Hl1 & ->).
    apply bool_decide_eq_true_1 in Hy as ->.
    exists l1, l2. repeat split; try reflexivity.
    intros Hin. specialize (Hl1 x Hin).
    apply bool_decide_eq_false_1 in Hl1. apply Hl1. reflexivity.
  - reflexivity.
  - intros Hin. exfalso.
    assert (existsb (fun y => bool_decide (y = x)) q = true) as E'.
    { apply existsb_exists. exists x. split.
      - apply list_elem_of_In. exact Hin.
      - apply bool_decide_eq_true_2. reflexivity. }
    congruence.
Qed.

(** ** What every event keeps *)

(** [Cancellation.do] and [Pickup.do], step by step. *)
Lemma Cancellation_do_steps t r w w1 w2 w3 :
  w1 = snd (notify t Monitor.RIDER Monitor.CANCEL (Rider.id (riders w r))
              (Some (Rider.origin (riders w r))) w) ->
  w2 = snd (assign_status r CANCELLED w1) ->
  w3 = snd (cancel_ride r w2) ->
  Cancellation_do t r w
  = if bool_decide (Rider.status (riders w r) = SATISFIED)
    then (Ok [], w) else (Ok [], w3).
Proof.
  intros -> -> ->.
  unfold Cancellation_do, cancel_ride. unfold_world.
  destruct (bool_decide (Rider.status (riders w r) = SATISFIED));
    simpl; [reflexivity|].
  match goal with
  | |- context [existsb ?p ?l] => destruct (existsb p l)
  end; reflexivity.
Qed.

Lemma Pickup_do_steps t r d w w1 w2 w3 ride :
  w1 = snd (call d Driver.end_drive w) ->
  w2 = snd (notify t Monitor.DRIVER Monitor.PICKUP
              (Driver.id (drivers w1 d)) (Driver.location (drivers w1 d))
              w1) ->
  w3 = snd (notify t Monitor.RIDER Monitor.PICKUP (Rider.id (riders w r))
              (Some (Rider.origin (riders w r))) w2) ->
  ride = call d (fun self => Driver.start_ride self (riders w r)) w3 ->
  Pickup_do t r d w
  = if bool_decide (Rider.status (riders w r) = WAITING) then
      match fst ride with
      | Ok time =>
          (Ok [Dropoff (t + time) r d],
           snd (assign_status r SATISFIED (snd ride)))
      | Raise x => (Raise x, snd ride)
      end
    else (Ok [DriverRequest t d], w2).
Proof.
  intros -> -> -> ->.
  unfold Pickup_do. unfold_world.
  destruct (bool_decide (Rider.status (riders w r) = WAITING));
    simpl; [|reflexivity].
  destruct (Driver.get_travel_time _ _); reflexivity.
Qed.

Lemma start_drive_method loc :
  driver_method (fun self => Driver.start_drive self loc).
Proof. intros self. split; reflexivity. Qed.

Lemma start_ride_method rider :
  driver_method (fun self => Driver.start_ride self rider).
Proof. intros self. split; reflexivity. Qed.

Lemma end_drive_method : driver_method (@Driver.end_drive).
Proof. intros self. split; reflexivity. Qed.

Lemma end_ride_method : driver_method (@Driver.end_ride).
Proof. intros self. split; reflexivity. Qed.

Section Kept.

Variable P : World -> World -> Prop.
Hypothesis P_refl : forall w, P w w.
Hypothesis P_trans : forall a b c, P a b -> P b c -> P a c.

Lemma keeps_ret {A} (a : A) : keeps P (ret a).
Proof. intros w. apply P_refl. Qed.

Lemma keeps_rider_obj r : keeps P (rider_obj r).
Proof. intros w. apply P_refl. Qed.

Lemma keeps_driver_obj d : keeps P (driver_obj d).
Proof. intros w. apply P_refl. Qed.

Lemma keeps_bind {A B} (c : M A) (k : A -> M B) :
  keeps P c -> (forall a, keeps P (k a)) -> keeps P (bind c k).
Proof.
  intros Hc Hk w. unfold bind. specialize (Hc w).
  destruct (c w) as [[a|e] w']; simpl in *; [|exact Hc].
  exact (P_trans _ _ _ Hc (Hk a w')).
Qed.

Hypothesis P_notify : forall t c d i loc, keeps P (notify t c d i loc).
Hypothesis P_call :
  forall A d (method : Driver.t -> Driver.t * Res A),
    driver_method method -> keeps P (call d method).
Hypothesis P_request_driver : forall r, keeps P (request_driver r).
Hypothesis P_request_rider : forall d, keeps P (request_rider d).
Hypothesis P_cancel_ride : forall r, keeps P (cancel_ride r).
Hypothesis P_cancel :
  forall r w, Rider.status (riders w r) <> SATISFIED ->
              P w (snd (assign_status r CANCELLED w)).
Hypothesis P_satisfy :
  forall r w, Rider.status (riders w r) = WAITING ->
              P w (snd (assign_status r SATISFIED w)).

Lemma keeps_RiderRequest_do t r : keeps P (RiderRequest_do t r).
Proof.
  unfold RiderRequest_do.
  apply keeps_bind; [apply keeps_rider_obj | intros robj].
  apply keeps_bind; [apply P_notify | intros _].
  apply keeps_bind; [apply P_request_driver | intros [d|]].
  - apply keeps_bind; [|intros evs; apply keeps_ret].
    apply keeps_bind; [|intros tt; apply keeps_ret].
    apply P_call, start_drive_method.
  - apply keeps_bind; [apply keeps_ret | intros evs; apply keeps_ret].
Qed.

Lemma keeps_DriverRequest_do t d : keeps P (DriverRequest_do t d).
Proof.
  unfold DriverRequest_do.
  apply keeps_bind; [apply keeps_driver_obj | intros dobj].
  apply keeps_bind; [apply P_notify | intros _].
  apply keeps_bind; [apply P_request_rider | intros [r|]];
    [|apply keeps_ret].
  apply keeps_bind; [apply keeps_rider_obj | intros robj].
  apply keeps_bind; [|intros tt; apply keeps_ret].
  apply P_call, start_drive_method.
Qed.

Lemma keeps_Dropoff_do t r d : keeps P (Dropoff_do t r d).
Proof.
  unfold Dropoff_do.
  apply keeps_bind; [apply keeps_rider_obj | intros robj].
  apply keeps_bind; [apply keeps_driver_obj | intros dobj].
  apply keeps_bind; [apply P_notify | intros _].
  apply keeps_bind; [apply P_notify | intros _].
  apply keeps_bind; [|intros _; apply keeps_ret].
  apply P_call, end_ride_method.
Qed.

Lemma keeps_Cancellation_do t r : keeps P (Cancellation_do t r).
Proof.
  intros w.
  remember (snd (notify t Monitor.RIDER Monitor.CANCEL (Rider.id (riders w r))
                   (Some (Rider.origin (riders w r))) w)) as w1 eqn:E1.
  remember (snd (assign_status r CANCELLED w1)) as w2 eqn:E2.
  remember (snd (cancel_ride r w2)) as w3 eqn:E3.
  rewrite (Cancellation_do_steps t r w w1 w2 w3 E1 E2 E3).
  destruct (bool_decide (Rider.status (riders w r) = SATISFIED)) eqn:E;
    simpl snd; [apply P_refl|].
  apply bool_decide_eq_false_1 in E.
  assert (H1 : P w w1) by (rewrite E1; apply P_notify).
  assert (H2 : P w1 w2).
  { rewrite E2. apply P_cancel. rewrite E1. exact E. }
  assert (H3 : P w2 w3) by (rewrite E3; apply P_cancel_ride).
  exact (P_trans _ _ _ H1 (P_trans _ _ _ H2 H3)).
Qed.

Lemma keeps_Pickup_do t r d : keeps P (Pickup_do t r d).
Proof.
  intros w.
  remember (snd (call d Driver.end_drive w)) as w1 eqn:E1.
  remember (snd (notify t Monitor.DRIVER Monitor.PICKUP
                   (Driver.id (drivers w1 d)) (Driver.location (drivers w1 d))
                   w1)) as w2 eqn:E2.
  remember (snd (notify t Monitor.RIDER Monitor.PICKUP (Rider.id (riders w r))
                   (Some (Rider.origin (riders w r))) w2)) as w3 eqn:E3.
  remember (call d (fun self => Driver.start_ride self (riders w r)) w3)
    as ride eqn:E4.
  rewrite (Pickup_do_steps t r d w w1 w2 w3 ride E1 E2 E3 E4).
  assert (H1 : P w w1) by (rewrite E1; apply P_call, end_drive_method).
  assert (H2 : P w1 w2) by (rewrite E2; apply P_notify).
  assert (H3 : P w2 w3) by (rewrite E3; apply P_notify).
  assert (H4 : P w3 (snd ride))
    by (rewrite E4; apply P_call, start_ride_method).
  assert (Hr : riders (snd ride) = riders w)
    by (rewrite E4, E3, E2, E1; reflexivity).
  destruct (bool_decide (Rider.status (riders w r) = WAITING)) eqn:E;
    simpl snd; [|exact (P_trans _ _ _ H1 H2)].
  apply bool_decide_eq_true_1 in E.
  assert (H14 : P w (snd ride))
    by exact (P_trans _ _ _ H1 (P_trans _ _ _ H2 (P_trans _ _ _ H3 H4))).
  destruct (fst ride); simpl snd; [|exact H14].
  apply (P_trans _ _ _ H14), P_satisfy. rewrite Hr. exact E.
Qed.

Lemma keeps_do e : keeps P (do e).
Proof.
  destruct e; simpl.
  - apply keeps_RiderRequest_do.
  - apply keeps_DriverRequest_do.
  - apply keeps_Cancellation_do.
  - apply keeps_Dropoff_do.
  - apply keeps_Pickup_do.
Qed.

End Kept.

(** The dispatcher's methods touch the dispatcher only. *)
Lemma dispatcher_methods_frame x w :
  (drivers (snd (request_driver x w)) = drivers w /\
   riders (snd (request_driver x w)) = riders w /\
   monitor (snd (request_driver x w)) = monitor w) /\
  (drivers (snd (request_rider x w)) = drivers w /\
   riders (snd (request_rider x w)) = riders w /\
   monitor (snd (request_rider x w)) = monitor w) /\
  (drivers (snd (cancel_ride x w)) = drivers w /\
   riders (snd (cancel_ride x w)) = riders w /\
   monitor (snd (cancel_ride x w)) = monitor w).
Proof.
  split; [|split].
  - unfold request_driver. destruct (bool_decide _); repeat split.
  - unfold request_rider. destruct (negb _); simpl;
      destruct (Dispatcher._riders (dispatcher w)); repeat split.
  - unfold cancel_ride. destruct (existsb _ _); repeat split.
Qed.

Lemma call_frame {A} d (method : Driver.t -> Driver.t * Res A) w :
  riders (snd (call d method w)) = riders w /\
  dispatcher (snd (call d method w)) = dispatcher w /\
  monitor (snd (call d method w)) = monitor w /\
  drivers (snd (call d method w)) = <[d := fst (method (drivers w d))]> (drivers w).
Proof. unfold call. destruct (method (drivers w d)); repeat split. Qed.

(** *** The monitor *)

Lemma notified_trans m1 m2 m3 :
  notified m1 m2 -> notified m2 m3 -> notified m1 m3.
Proof.
  intros H12 H23. induction H23 as [|m' t c d i loc _ IH]; [exact H12|].
  apply notified_step. exact IH.
Qed.

Lemma notify_other_log t c c' d i loc m :
  c <> c' ->
  Monitor._activities (Monitor.notify t c d i loc m) c'
  = Monitor._activities m c'.
Proof.
  intros Hne. unfold Monitor.notify.
  destruct c, c'; try reflexivity; congruence.
Qed.

Lemma do_notified e w : notified (monitor w) (monitor (snd (do e w))).
Proof.
  apply (keeps_do (fun w w' => notified (monitor w) (monitor w'))).
  - intros w0. apply notified_refl.
  - intros a b c. apply notified_trans.
  - intros t c d i loc w0. apply notified_step, notified_refl.
  - intros A d method _ w0.
    rewrite (proj1 (proj2 (proj2 (call_frame d method w0)))).
    apply notified_refl.
  - intros r w0.
    destruct (dispatcher_methods_frame r w0) as ((_ & _ & ->) & _).
    apply notified_refl.
  - intros d w0.
    destruct (dispatcher_methods_frame d w0) as (_ & (_ & _ & ->) & _).
    apply notified_refl.
  - intros r w0.
    destruct (dispatcher_methods_frame r w0) as (_ & _ & (_ & _ & ->)).
    apply notified_refl.
  - intros r w0 _. apply notified_refl.
  - intros r w0 _. apply notified_refl.
Qed.

Lemma notified_appends m m' :
  notified m m' ->
  forall c i log,
    Monitor._activities m c !! i = Some log ->
    exists more, Monitor._activities m' c !! i = Some (log ++ more).
Proof.
  induction 1 as [|m' t c0 d i0 loc _ IH]; intros c i log Hlog.
  - exists []. rewrite app_nil_r. exact Hlog.
  - destruct (IH c i log Hlog) as (more & Hmore).
    assert (Hc : c0 = c \/ c0 <> c) by (destruct c0, c; auto; right; discriminate).
    destruct Hc as [->|Hc];
      [|exists more; rewrite notify_other_log by exact Hc; exact Hmore].
    destruct (decide (i0 = i)) as [->|Hi];
      [|exists more; rewrite notify_lookup_ne by exact Hi; exact Hmore].
    exists (more ++ [Monitor.Activity_init t d i loc]).
    rewrite notify_lookup, Hmore. simpl. rewrite app_assoc. reflexivity.
Qed.

Lemma notified_keyed m m' : notified m m' -> keyed m -> keyed m'.
Proof.
  induction 1 as [|m' t c0 d i0 loc _ IH]; intros Hk; [exact Hk|].
  specialize (IH Hk). intros c i log Hlog.
  assert (Hc : c0 = c \/ c0 <> c) by (destruct c0, c; auto; right; discriminate).
  destruct Hc as [->|Hc];
    [|rewrite notify_other_log in Hlog by exact Hc; exact (IH c i log Hlog)].
  destruct (decide (i0 = i)) as [->|Hi];
    [|rewrite notify_lookup_ne in Hlog by exact Hi; exact (IH c i log Hlog)].
  rewrite notify_lookup in Hlog. injection Hlog as <-. split.
  - destruct (default [] _); discriminate.
  - apply Forall_app. split; [|repeat constructor].
    destruct (Monitor._activities m' c !! i) as [old|] eqn:E; simpl;
      [exact (proj2 (IH c i old E)) | constructor].
Qed.

(** X6. Executing an event only appends to the monitor: whether the event
    returns or raises, every log that existed before (of any rider or
    driver) is afterwards the same log followed by zero or more new
    activities; nothing is dropped, changed or reordered. *)
Theorem events_only_append (e : Event) (w : World) (c : Monitor.Category)
    (i : string) (log : list Monitor.Activity) :
  Monitor._activities (monitor w) c !! i = Some log ->
  exists more,
    Monitor._activities (monitor (snd (do e w))) c !! i = Some (log ++ more).
Proof. apply notified_appends, do_notified. Qed.

Lemma events_only_append_witness :
  exists more,
    Monitor.rider_log (monitor (snd (do (Cancellation 9 0) after_cancel)))
      !! "r1"
    = Some ([Monitor.Activity_init 2 Monitor.REQUEST "r1"
               (Some (Location.Location 0 0));
             Monitor.Activity_init 6 Monitor.CANCEL "r1"
               (Some (Location.Location 0 0))] ++ more).
Proof.
  apply (events_only_append (Cancellation 9 0) after_cancel Monitor.RIDER).
  vm_compute. reflexivity.
Defined.

(** X7. Executing an event keeps the monitor's logs filed under their
    actors: if every log is non-empty and holds only activities whose id
    is the log's key, the same is true after the event, whether it returns
    or raises.  The fresh monitor has no log at all, so this holds
    throughout a simulation. *)
Theorem events_keep_logs_keyed (e : Event) (w : World) :
  keyed (monitor w) -> keyed (monitor (snd (do e w))).
Proof. apply notified_keyed, do_notified. Qed.

Lemma events_keep_logs_keyed_witness :
  keyed Monitor.init /\
  keyed (monitor (snd (do (RiderRequest 2 0) (new_simulation r1 d1)))).
Proof.
  assert (H : keyed Monitor.init).
  { intros c i log Hlog. destruct c; simpl in Hlog;
      rewrite lookup_empty in Hlog; discriminate Hlog. }
  split; [exact H|].
  exact (events_keep_logs_keyed (RiderRequest 2 0) (new_simulation r1 d1) H).
Defined.

(** *** Drivers, riders and the registry *)

(** X8. No event changes the id or the speed of any driver, whether it
    returns or raises. *)
Theorem events_keep_driver_identity (e : Event) (w : World) :
  same_driver_identity w (snd (do e w)).
Proof.
  apply (keeps_do same_driver_identity).
  - intros w0 d. split; reflexivity.
  - intros a b c Hab Hbc d. destruct (Hab d) as [? ?], (Hbc d) as [? ?].
    split; congruence.
  - intros t c d i loc w0 x. split; reflexivity.
  - intros A d method Hm w0 x.
    rewrite (proj2 (proj2 (proj2 (call_frame d method w0)))).
    destruct (decide (d = x)) as [->|Hne].
    + rewrite fn_lookup_insert. apply Hm.
    + rewrite fn_lookup_insert_ne by exact Hne. split; reflexivity.
  - intros r w0 x.
    destruct (dispatcher_methods_frame r w0) as ((-> & _) & _).
    split; reflexivity.
  - intros d w0 x.
    destruct (dispatcher_methods_frame d w0) as (_ & (-> & _) & _).
    split; reflexivity.
  - intros r w0 x.
    destruct (dispatcher_methods_frame r w0) as (_ & _ & (-> & _)).
    split; reflexivity.
  - intros r w0 _ x. split; reflexivity.
  - intros r w0 _ x. split; reflexivity.
Qed.

(** X9. No event changes the id, origin, destination or patience of any
    rider, and a status other than Waiting is final: a rider that is
    Cancelled or Satisfied before an event has the same status after it,
    whether the event returns or raises. *)
Theorem events_keep_settled_riders (e : Event) (w : World) :
  riders_settled w (snd (do e w)).
Proof.
  assert (Hrefl : forall w0, riders_settled w0 w0)
    by (intros w0 r; repeat split; reflexivity).
  assert (Heq : forall w0 w1, riders w1 = riders w0 -> riders_settled w0 w1)
    by (intros w0 w1 Hr r; rewrite Hr; repeat split; reflexivity).
  apply (keeps_do riders_settled).
  - exact Hrefl.
  - intros a b c Hab Hbc r.
    destruct (Hab r) as (? & ? & ? & ? & Hs), (Hbc r) as (? & ? & ? & ? & Hs').
    repeat split; try congruence.
    intros Hw. rewrite Hs' by (rewrite Hs; exact Hw). exact (Hs Hw).
  - intros t c d i loc w0. apply Heq. reflexivity.
  - intros A d method _ w0. apply Heq, call_frame.
  - intros r w0. apply Heq, dispatcher_methods_frame.
  - intros d w0. apply Heq, dispatcher_methods_frame.
  - intros r w0. apply Heq, dispatcher_methods_frame.
  - intros r w0 Hns x. simpl.
    destruct (decide (r = x)) as [->|Hne].
    + rewrite fn_lookup_insert. simpl. repeat split.
      intros Hw. destruct (Rider.status (riders w0 x)); congruence.
    + rewrite fn_lookup_insert_ne by exact Hne. repeat split; reflexivity.
  - intros r w0 Hwait x. simpl.
    destruct (decide (r = x)) as [->|Hne].
    + rewrite fn_lookup_insert. simpl. repeat split.
      intros Hw. congruence.
    + rewrite fn_lookup_insert_ne by exact Hne. repeat split; reflexivity.
Qed.

Lemma request_rider_registry d w : registry_grows w (snd (request_rider d w)).
Proof.
  unfold registry_grows, request_rider.
  destruct (existsb (fun e => same_driver w e d)
              (Dispatcher._drivers (dispatcher w))) eqn:E; simpl;
    destruct (Dispatcher._riders (dispatcher w)); simpl;
    try (split; [reflexivity | tauto]).
  all: split; [apply prefix_app_r; reflexivity|].
  all: intros Hnd; apply list.NoDup_app; split; [exact Hnd|];
    split; [|apply NoDup_singleton].
  all: intros x Hx Hxd; apply list_elem_of_singleton in Hxd as ->.
  all: assert (existsb (fun e => same_driver w e d)
                 (Dispatcher._drivers (dispatcher w)) = true) as E'
    by (apply existsb_exists; exists d; split;
        [apply list_elem_of_In; exact Hx
        |unfold same_driver; rewrite bool_decide_eq_true_2 by reflexivity;
         reflexivity]).
  all: congruence.
Qed.

(** X10. No event unregisters a driver or registers a reference twice:
    after an event, whether it returns or raises, the registered drivers
    are those before, in the same order, with at most new ones behind
    them, and if no reference occurred twice before, none does after. *)
Theorem events_grow_registry (e : Event) (w : World) :
  registry_grows w (snd (do e w)).
Proof.
  assert (Heq : forall w0 w1,
            Dispatcher._drivers (dispatcher w1)
            = Dispatcher._drivers (dispatcher w0) -> registry_grows w0 w1)
    by (intros w0 w1 Hd; unfold registry_grows; rewrite Hd;
        split; [reflexivity | tauto]).
  apply (keeps_do registry_grows).
  - intros w0. apply Heq. reflexivity.
  - intros a b c [Hab Hab'] [Hbc Hbc']. split.
    + etransitivity; eassumption.
    + tauto.
  - intros t c d i loc w0. apply Heq. reflexivity.
  - intros A d method _ w0. apply Heq.
    rewrite (proj1 (proj2 (call_frame d method w0))). reflexivity.
  - intros r w0. apply Heq. apply (registered_forever w0 r).
  - intros d w0. apply request_rider_registry.
  - intros r w0. apply Heq. apply (registered_forever w0 r).
  - intros r w0 _. apply Heq. reflexivity.
  - intros r w0 _. apply Heq. reflexivity.
Qed.

(** ** The events an event spawns *)

Lemma get_travel_time_nonneg self dest t :
  0 <= Driver._speed self ->
  Driver.get_travel_time self dest = Ok t -> 0 <= t.
Proof.
  intros Hs. unfold Driver.get_travel_time.
  destruct (Driver.location self) as [here|]; simpl; [|discriminate].
  apply int_true_div_nonneg; [apply manhattan_distance_nonneg | exact Hs].
Qed.

Ltac unfold_world_in H :=
  unfold bind, ret, call, driver_obj, rider_obj, notify, assign_status in H;
  simpl in H.

(** X11. An event never spawns an event in its own past, and never more
    than two events: when no driver has a negative speed and no rider a
    negative patience, every event returned by [do] carries a timestamp
    not earlier than that of the event executed. *)
Theorem spawned_events_not_earlier (e : Event) (w w' : World)
    (events : list Event) :
  (forall d, 0 <= Driver._speed (drivers w d)) ->
  (forall r, 0 <= Rider.patience (riders w r)) ->
  do e w = (Ok events, w') ->
  (length events <= 2)%nat /\
  Forall (fun e' => timestamp e <= timestamp e') events.
Proof.
  intros Hspeed Hpatience H.
  destruct e as [t r|t d|t r|t r d|t r d]; simpl in H.
  - unfold RiderRequest_do in H. unfold_world_in H.
    match type of H with
    | context [request_driver r ?w1] =>
        pose proof (proj1 (proj1 (dispatcher_methods_frame r w1))) as Hd;
        destruct (request_driver r w1) as [[[d|]|x] w2]; simpl in H, Hd
    end; [| |discriminate].
    + destruct (Driver.get_travel_time _ _) as [time|x] eqn:Et; simpl in H;
        [|discriminate].
      apply get_travel_time_nonneg in Et;
        [|simpl; rewrite Hd; apply Hspeed].
      injection H as <- <-. split; [simpl; lia|].
      repeat constructor; simpl; [lia | specialize (Hpatience r); lia].
    + injection H as <- <-. split; [simpl; lia|].
      repeat constructor; simpl. specialize (Hpatience r); lia.
  - unfold DriverRequest_do in H. unfold_world_in H.
    match type of H with
    | context [request_rider d ?w1] =>
        pose proof (proj1 (proj1 (proj2 (dispatcher_methods_frame d w1))))
          as Hd;
        destruct (request_rider d w1) as [[[r|]|x] w2]; simpl in H, Hd
    end; [| |discriminate].
    + destruct (Driver.get_travel_time _ _) as [time|x] eqn:Et; simpl in H;
        [|discriminate].
      apply get_travel_time_nonneg in Et;
        [|simpl; rewrite Hd; apply Hspeed].
      injection H as <- <-. split; [simpl; lia|].
      repeat constructor; simpl; lia.
    + injection H as <- <-. split; [simpl; lia | constructor].
  - rewrite (Cancellation_do_steps t r w _ _ _ eq_refl eq_refl eq_refl) in H.
    destruct (bool_decide _); injection H as <- _;
      (split; [simpl; lia | constructor]).
  - unfold Dropoff_do in H. unfold_world_in H.
    injection H as <- <-. split; [simpl; lia|].
    repeat constructor; simpl; lia.
  - rewrite (Pickup_do_steps t r d w _ _ _ _ eq_refl eq_refl eq_refl eq_refl)
      in H.
    destruct (bool_decide _).
    + match type of H with
      | context [fst ?c] => destruct (fst c) as [time|x] eqn:Et
      end; [|discriminate].
      unfold call in Et. simpl in Et.
      apply get_travel_time_nonneg in Et.
      * injection H as <- _. split; [simpl; lia|].
        repeat constructor; simpl; lia.
      * simpl. rewrite fn_lookup_insert. simpl. apply Hspeed.
    + injection H as <- _. split; [simpl; lia|].
      repeat constructor; simpl; lia.
Qed.

Lemma spawned_events_not_earlier_witness :
  exists events w',
    do (RiderRequest 10 0) three_drivers = (Ok events, w') /\
    Forall (fun e' => 10 <= timestamp e') events.
Proof.
  destruct (do (RiderRequest 10 0) three_drivers) as [[events|x] w'] eqn:E;
    [|vm_compute in E; discriminate E].
  exists events, w'. split; [reflexivity|].
  refine (proj2 (spawned_events_not_earlier (RiderRequest 10 0) three_drivers
                   w' events _ _ E)).
  - intros [|[|d]]; simpl; lia.
  - intros r. simpl. lia.
Defined.

(** ** The waitlist and the registry *)

Lemma request_driver_enqueues r w :
  Dispatcher._drivers (dispatcher w) = [] ->
  Dispatcher._drivers (dispatcher (snd (request_driver r w))) = [] /\
  Dispatcher._riders (dispatcher (snd (request_driver r w)))
  = Dispatcher._riders (dispatcher w) ++ [r].
Proof.
  intros Hd. unfold request_driver. rewrite Hd. simpl.
  split; reflexivity.
Qed.

Lemma request_all_waitlist rs : forall w,
  Dispatcher._drivers (dispatcher w) = [] ->
  Dispatcher._drivers (dispatcher (request_all rs w)) = [] /\
  Dispatcher._riders (dispatcher (request_all rs w))
  = Dispatcher._riders (dispatcher w) ++ rs.
Proof.
  induction rs as [|r rs IH]; intros w Hd; simpl.
  - rewrite app_nil_r. split; [exact Hd | reflexivity].
  - destruct (request_driver_enqueues r w Hd) as [Hd' Hq].
    destruct (IH _ Hd') as [Hd'' Hq'].
    split; [exact Hd''|]. rewrite Hq', Hq, <- app_assoc. reflexivity.
Qed.

Lemma serve_all_fifo ds : forall w,
  (length ds <= length (Dispatcher._riders (dispatcher w)))%nat ->
  fst (serve_all ds w)
  = (fun r => Ok (Some r)) <$> take (length ds) (Dispatcher._riders (dispatcher w))
  /\
  Dispatcher._riders (dispatcher (snd (serve_all ds w)))
  = drop (length ds) (Dispatcher._riders (dispatcher w)).
Proof.
  induction ds as [|d ds IH]; intros w Hlen; simpl.
  - split; reflexivity.
  - destruct (request_rider d w) as [res w1] eqn:E.
    assert (Hq : exists r q, Dispatcher._riders (dispatcher w) = r :: q /\
                             res = Ok (Some r) /\
                             Dispatcher._riders (dispatcher w1) = q).
    { unfold request_rider in E.
      destruct (Dispatcher._riders (dispatcher w)) as [|r q] eqn:Eq;
        [simpl in Hlen; lia|].
      exists r, q. split; [reflexivity|].
      destruct (negb _) in E; simpl in E; rewrite ?Eq in E;
        injection E as <- <-; split; reflexivity. }
    destruct Hq as (r & q & Hw & -> & Hw1).
    rewrite Hw in Hlen. simpl in Hlen.
    destruct (IH w1 ltac:(rewrite Hw1; lia)) as [Hres Hrest].
    destruct (serve_all ds w1) as [rs w2]. simpl in *.
    rewrite Hw. simpl. rewrite Hres, Hrest, Hw1. split; reflexivity.
Qed.

(** X12. The waitlist is first in, first out.  While no driver is
    registered, [request_driver] puts each rider behind those waiting;
    the calls of [request_rider] that follow return the waiting riders in
    that order, one per call, and leave the others waiting. *)
Theorem waitlist_first_in_first_out (rs ds : list nat) (w : World) :
  Dispatcher._drivers (dispatcher w) = [] ->
  (length ds <= length (Dispatcher._riders (dispatcher w) ++ rs))%nat ->
  fst (serve_all ds (request_all rs w))
  = (fun r => Ok (Some r))
      <$> take (length ds) (Dispatcher._riders (dispatcher w) ++ rs) /\
  Dispatcher._riders (dispatcher (snd (serve_all ds (request_all rs w))))
  = drop (length ds) (Dispatcher._riders (dispatcher w) ++ rs).
Proof.
  intros Hd Hlen.
  destruct (request_all_waitlist rs w Hd) as [_ Hq].
  rewrite <- Hq in *. apply serve_all_fifo. exact Hlen.
Qed.

Lemma waitlist_first_in_first_out_witness :
  fst (serve_all [7; 8]%nat (request_all [3; 1; 2]%nat (new_simulation r1 d1)))
  = [Ok (Some 3%nat); Ok (Some 1%nat)].
Proof.
  refine (proj1 (waitlist_first_in_first_out [3; 1; 2]%nat [7; 8]%nat
                   (new_simulation r1 d1) eq_refl _)).
  simpl. lia.
Defined.

Lemma existsb_false_forall {A} (p : A -> bool) (l : list A) :
  existsb p l = false <-> forall x, x ∈ l -> p x = false.
Proof.
  induction l as [|y l IH]; simpl.
  - split; [intros _ x Hx; inversion Hx | reflexivity].
  - rewrite orb_false_iff, IH. split.
    + intros [Hy Hl] x Hx. apply elem_of_cons in Hx as [->|Hx]; auto.
    + intros H. split; [apply H; left | intros x Hx; apply H; right; exact Hx].
Qed.

Lemma remove_first_here {A} (p : A -> bool) (l1 : list A) x l2 :
  (forall y, y ∈ l1 -> p y = false) -> p x = true ->
  existsb p (l1 ++ x :: l2) = true /\
  remove_first p (l1 ++ x :: l2) = l1 ++ l2.
Proof.
  intros Hl1 Hx. induction l1 as [|y l1 IH]; simpl.
  - rewrite Hx. split; reflexivity.
  - rewrite (Hl1 y) by (left). simpl.
    destruct IH as [-> ->]; [intros z Hz; apply Hl1; right; exact Hz|].
    split; reflexivity.
Qed.

(** X13. [cancel_ride] takes exactly one rider off the waitlist: the first
    one that is the given rider or equals it field by field (so possibly
    another object), keeping the others in order; when no waiting rider
    is or equals the given one, it changes nothing.  It never raises and
    never touches drivers, riders, monitor or registered drivers. *)
Theorem cancel_ride_first_equal (rider : nat) (w : World) :
  ((forall x, x ∈ Dispatcher._riders (dispatcher w) ->
              same_rider w x rider = false) ->
   cancel_ride rider w = (Ok tt, w)) /\
  (forall l1 x l2,
     Dispatcher._riders (dispatcher w) = l1 ++ x :: l2 ->
     (forall y, y ∈ l1 -> same_rider w y rider = false) ->
     same_rider w x rider = true ->
     cancel_ride rider w
     = (Ok tt,
        set_dispatcher
          {| Dispatcher._drivers := Dispatcher._drivers (dispatcher w);
             Dispatcher._riders := l1 ++ l2 |} w)).
Proof.
  unfold cancel_ride. split.
  - intros Hnone. apply existsb_false_forall in Hnone.
    rewrite Hnone. reflexivity.
  - intros l1 x l2 Hq Hl1 Hx. rewrite Hq.
    destruct (remove_first_here (fun e => same_rider w e rider) l1 x l2 Hl1 Hx)
      as [-> ->].
    reflexivity.
Qed.

Lemma cancel_ride_first_equal_witness :
  Dispatcher._riders
    (dispatcher (snd (cancel_ride 1 equal_riders_waiting))) = [1%nat].
Proof.
  rewrite (proj2 (cancel_ride_first_equal 1 equal_riders_waiting)
             [] O [1%nat] eq_refl).
  - reflexivity.
  - intros y Hy. inversion Hy.
  - reflexivity.
Defined.

(** X14. Asking for a driver and cancelling is a round trip on the
    dispatcher: when no driver is registered and no waiting rider is or
    equals the given one, [request_driver] followed by [cancel_ride] for
    the same rider leaves registered drivers and waitlist as they were. *)
Theorem request_then_cancel_restores (rider : nat) (w : World) :
  Dispatcher._drivers (dispatcher w) = [] ->
  (forall x, x ∈ Dispatcher._riders (dispatcher w) ->
             same_rider w x rider = false) ->
  dispatcher (snd (cancel_ride rider (snd (request_driver rider w))))
  = dispatcher w.
Proof.
  intros Hd Hnone.
  unfold request_driver. rewrite Hd. simpl.
  unfold cancel_ride. simpl.
  destruct (remove_first_here
              (fun e => same_rider
                          (set_dispatcher
                             {| Dispatcher._drivers := [];
                                Dispatcher._riders :=
                                  Dispatcher._riders (dispatcher w) ++ [rider] |}
                             w) e rider)
              (Dispatcher._riders (dispatcher w)) rider [])
    as [-> ->].
  - exact Hnone.
  - unfold same_rider. rewrite bool_decide_eq_true_2 by reflexivity.
    reflexivity.
  - simpl. rewrite app_nil_r, <- Hd.
    destruct (dispatcher w); reflexivity.
Qed.

Lemma request_then_cancel_restores_witness :
  dispatcher (snd (cancel_ride 0 (snd (request_driver 0
                                         (new_simulation r1 d1)))))
  = Dispatcher.init.
Proof.
  apply (request_then_cancel_restores 0 (new_simulation r1 d1) eq_refl).
  intros x Hx. inversion Hx.
Defined.

(** X15. [request_rider] registers the driver, at the end of the registry,
    exactly when no registered driver is the same object or equals it by
    [Driver.__eq__] (same id, location and idle flag, whatever the speed and
    the pending destination); otherwise the registry is unchanged.  A
    second request of the same driver right after the first never
    registers it again. *)
Theorem request_rider_registers_once (driver : nat) (w : World) :
  ((forall x, x ∈ Dispatcher._drivers (dispatcher w) ->
              x <> driver /\
              Driver.eqb (drivers w x) (drivers w driver) = false) ->
   Dispatcher._drivers (dispatcher (snd (request_rider driver w)))
   = Dispatcher._drivers (dispatcher w) ++ [driver]) /\
  ((exists x, x ∈ Dispatcher._drivers (dispatcher w) /\
              (x = driver \/
               Driver.eqb (drivers w x) (drivers w driver) = true)) ->
   Dispatcher._drivers (dispatcher (snd (request_rider driver w)))
   = Dispatcher._drivers (dispatcher w)) /\
  Dispatcher._drivers
    (dispatcher (snd (request_rider driver (snd (request_rider driver w)))))
  = Dispatcher._drivers (dispatcher (snd (request_rider driver w))).
Proof.
  assert (Hnew : forall w0,
    existsb (fun e => same_driver w0 e driver)
      (Dispatcher._drivers (dispatcher w0)) = false ->
    Dispatcher._drivers (dispatcher (snd (request_rider driver w0)))
    = Dispatcher._drivers (dispatcher w0) ++ [driver]).
  { intros w0 E. unfold request_rider. rewrite E. simpl.
    destruct (Dispatcher._riders (dispatcher w0)); reflexivity. }
  assert (Hold : forall w0,
    existsb (fun e => same_driver w0 e driver)
      (Dispatcher._drivers (dispatcher w0)) = true ->
    Dispatcher._drivers (dispatcher (snd (request_rider driver w0)))
    = Dispatcher._drivers (dispatcher w0)).
  { intros w0 E. unfold request_rider. rewrite E. simpl.
    destruct (Dispatcher._riders (dispatcher w0)); reflexivity. }
  split; [|split].
  - intros Hnone. apply Hnew. apply existsb_false_forall.
    intros x Hx. destruct (Hnone x Hx) as [Hne Heq].
    unfold same_driver. rewrite Heq.
    rewrite bool_decide_eq_false_2 by exact Hne. reflexivity.
  - intros (x & Hx & Hsame). apply Hold. apply existsb_exists.
    exists x. split; [apply list_elem_of_In; exact Hx|].
    unfold same_driver. destruct Hsame as [-> | Heq].
    + rewrite bool_decide_eq_true_2 by reflexivity. reflexivity.
    + rewrite Heq. apply orb_true_r.
  - set (w1 := snd (request_rider driver w)).
    assert (Hd : drivers w1 = drivers w) by apply dispatcher_methods_frame.
    apply Hold. fold w1.
    destruct (existsb (fun e => same_driver w e driver)
                (Dispatcher._drivers (dispatcher w))) eqn:E.
    + unfold w1 at 2. rewrite (Hold w E).
      rewrite <- E. apply existsb_pointwise.
      intros x. unfold same_driver. rewrite Hd. reflexivity.
    + unfold w1 at 2. rewrite (Hnew w E).
      rewrite existsb_app. simpl.
      unfold same_driver at 2.
      rewrite bool_decide_eq_true_2 by reflexivity. simpl.
      apply orb_true_r.
Qed.

Lemma request_rider_registers_once_witness :
  Dispatcher._drivers
    (dispatcher (snd (request_rider 1 (snd (request_rider 0 equal_drivers)))))
  = [O].
Proof.
  rewrite (proj1 (proj2 (request_rider_registers_once 1
                           (snd (request_rider 0 equal_drivers))))).
  - reflexivity.
  - exists O. split; [left | right; reflexivity].
Defined.

(** ** [Monitor.notify] and the averages *)

(** X16. [notify] is a pure append: the activity goes to the end of the
    actor's log in the given category (a new log if the actor had none),
    every other log of that category and the whole other category are
    unchanged, and the number of actors of the category grows by one
    exactly when the actor is new. *)
Theorem notify_appends_one (t : Z) (c : Monitor.Category)
    (d : Monitor.Description) (i : string) (loc : option Location)
    (m : Monitor.t) :
  let m' := Monitor.notify t c d i loc m in
  Monitor._activities m' c !! i
  = Some (default [] (Monitor._activities m c !! i)
          ++ [Monitor.Activity_init t d i loc]) /\
  (forall j, j <> i ->
     Monitor._activities m' c !! j = Monitor._activities m c !! j) /\
  (forall c', c' <> c ->
     Monitor._activities m' c' = Monitor._activities m c') /\
  size (Monitor._activities m' c)
  = match Monitor._activities m c !! i with
    | Some _ => size (Monitor._activities m c)
    | None => S (size (Monitor._activities m c))
    end.
Proof.
  simpl. split; [apply notify_lookup|].
  split; [intros j Hj; apply notify_lookup_ne; congruence|].
  split; [intros c' Hc; apply notify_other_log; congruence|].
  unfold Monitor.notify.
  assert (Hsize : forall log : gmap string (list Monitor.Activity),
    size (<[i := default [] (match log !! i with
                             | Some _ => log
                             | None => <[i := []]> log
                             end !! i)
                 ++ [Monitor.Activity_init t d i loc]]>
            match log !! i with
            | Some _ => log
            | None => <[i := []]> log
            end)
    = match log !! i with
      | Some _ => size log
      | None => S (size log)
      end).
  { intros log. destruct (log !! i) as [old|] eqn:E.
    - rewrite E. simpl. apply map_size_insert_Some. exists old. exact E.
    - rewrite lookup_insert_eq. simpl. rewrite insert_insert_eq.
      apply map_size_insert_None. exact E. }
  destruct c; simpl; apply Hsize.
Qed.

Lemma fold_wait_sum l : forall acc,
  fold_left Monitor.wait_step l acc
  = (fst acc + sum_Z (omap first_wait l),
     (snd acc + length (omap first_wait l))%nat).
Proof.
  induction l as [|log l IH]; intros [wait count]; simpl.
  - apply injective_projections; simpl; lia.
  - rewrite IH.
    destruct log as [|a0 [|a1 rest]]; apply injective_projections; simpl;
      change (list_omap (list Monitor.Activity) Z first_wait l)
        with (omap first_wait l); lia.
Qed.

Lemma sum_Z_permutation l l' : l ≡ₚ l' -> sum_Z l = sum_Z l'.
Proof. induction 1; simpl in *; lia. Qed.

(** X17. The average wait time is the mean, over the riders whose log has
    at least two activities, of the time of the second activity minus the
    time of the first; riders with fewer activities count neither in the
    sum nor in the number, and it raises ZeroDivisionError exactly when
    there is no rider with two activities. *)
Theorem average_wait_time_is_mean (m : Monitor.t) :
  Monitor._average_wait_time m
  = float_true_div (sum_Z (resolved_waits m)) (length (resolved_waits m)) /\
  (Monitor._average_wait_time m = Raise ZeroDivisionError <->
   forall i log, Monitor.rider_log m !! i = Some log -> (length log < 2)%nat).
Proof.
  assert (Hmean : Monitor._average_wait_time m
    = float_true_div (sum_Z (resolved_waits m)) (length (resolved_waits m))).
  { unfold Monitor._average_wait_time, resolved_waits. simpl.
    rewrite fold_wait_sum. reflexivity. }
  split; [exact Hmean|].
  rewrite Hmean, float_true_div_zero_iff. unfold resolved_waits. split.
  - intros Hraise i log Hi.
    destruct (omap first_wait (Monitor.values (Monitor.rider_log m)))
      as [|x xs] eqn:E; [|discriminate].
    assert (Hlog : log ∈ Monitor.values (Monitor.rider_log m))
      by (apply elem_of_values; exists i; exact Hi).
    destruct (first_wait log) as [x|] eqn:Ex.
    + assert (Hx : x ∈ omap first_wait (Monitor.values (Monitor.rider_log m)))
        by (apply list_elem_of_omap; exists log; split; assumption).
      rewrite E in Hx. inversion Hx.
    + destruct log as [|a0 [|a1 rest]]; simpl in *; try lia. discriminate.
  - intros Hnone.
    destruct (omap first_wait (Monitor.values (Monitor.rider_log m)))
      as [|x xs] eqn:E; [reflexivity|].
    assert (Hx : x ∈ omap first_wait (Monitor.values (Monitor.rider_log m)))
      by (rewrite E; left).
    apply list_elem_of_omap in Hx as (log & Hlog & Hx).
    apply elem_of_values in Hlog as (i & Hi).
    specialize (Hnone i log Hi).
    destruct log as [|a0 [|a1 rest]]; simpl in *; try discriminate; lia.
Qed.

(** X18. Only the first two activities of a rider matter for the average
    wait time: notifying a further activity (a Dropoff after the Pickup,
    a Cancel after the Pickup, ...) for a rider that already has two leaves
    it unchanged. *)
Theorem wait_time_ignores_later_activities (t : Z) (d : Monitor.Description)
    (i : string) (loc : option Location) (m : Monitor.t)
    (log : list Monitor.Activity) :
  Monitor.rider_log m !! i = Some log ->
  (2 <= length log)%nat ->
  Monitor._average_wait_time (Monitor.notify t Monitor.RIDER d i loc m)
  = Monitor._average_wait_time m.
Proof.
  intros Hi Hlen.
  unfold Monitor._average_wait_time. rewrite !fold_wait_sum.
  assert (Hperm :
    omap first_wait
      (Monitor.values
         (Monitor._activities (Monitor.notify t Monitor.RIDER d i loc m)
            Monitor.RIDER))
    ≡ₚ omap first_wait
         (Monitor.values (Monitor._activities m Monitor.RIDER))).
  { unfold Monitor.notify, Monitor.values. simpl. rewrite Hi. simpl.
    rewrite <- insert_delete_eq.
    rewrite map_to_list_insert by apply lookup_delete_eq.
    rewrite <- (map_to_list_delete (Monitor.rider_log m) i log Hi).
    simpl. destruct log as [|a0 [|a1 rest]]; simpl in *; try lia.
    rewrite Hi. reflexivity. }
  rewrite (sum_Z_permutation _ _ Hperm), (Permutation_length Hperm).
  reflexivity.
Qed.

Lemma wait_time_ignores_later_activities_witness :
  Monitor._average_wait_time
    (Monitor.notify 9 Monitor.RIDER Monitor.DROPOFF "r1"
       (Some (Location.Location 3 4)) (monitor after_pickup))
  = Ok 1%Q.
Proof.
  rewrite (wait_time_ignores_later_activities 9 Monitor.DROPOFF "r1"
             (Some (Location.Location 3 4)) (monitor after_pickup)
             [Monitor.Activity_init 2 Monitor.REQUEST "r1"
                (Some (Location.Location 0 0));
              Monitor.Activity_init 3 Monitor.PICKUP "r1"
                (Some (Location.Location 0 0))]).
  - vm_compute. reflexivity.
  - vm_compute. reflexivity.
  - simpl. lia.
Defined.

Lemma leg_nonneg a b d : Monitor.leg a b = Ok d -> 0 <= d.
Proof.
  unfold Monitor.leg.
  destruct (Monitor.location a), (Monitor.location b); simpl;
    try discriminate.
  intros [= <-]. apply manhattan_distance_nonneg.
Qed.

Lemma total_scan_grows log : forall d d',
  Monitor.total_scan d log = Ok d' -> d <= d'.
Proof.
  induction log as [|a0 log IH]; intros d d' H.
  - injection H as <-. lia.
  - destruct log as [|a1 [|a2 rest]]; try (injection H as <-; lia).
    rewrite total_scan_step in H.
    destruct (bool_decide (Monitor.description a0 = Monitor.REQUEST)).
    + destruct (Monitor.leg a0 a1) as [x1|] eqn:E1; [|discriminate].
      apply leg_nonneg in E1. cbn [res_bind] in H.
      destruct (bool_decide (Monitor.description a2 = Monitor.DROPOFF)).
      * destruct (Monitor.leg a1 a2) as [x2|] eqn:E2; [|discriminate].
        apply leg_nonneg in E2. cbn [res_bind] in H. apply IH in H. lia.
      * cbn [res_bind] in H. apply IH in H. lia.
    + cbn [res_bind] in H. apply IH in H. lia.
Qed.

Lemma ride_scan_grows log : forall d d',
  Monitor.ride_scan d log = Ok d' -> d <= d'.
Proof.
  induction log as [|a0 log IH]; intros d d' H.
  - injection H as <-. lia.
  - destruct log as [|a1 rest]; [injection H as <-; lia|].
    rewrite ride_scan_step in H.
    destruct (bool_decide (Monitor.description a0 = Monitor.PICKUP) &&
              bool_decide (Monitor.description a1 = Monitor.DROPOFF)).
    + destruct (Monitor.leg a0 a1) as [x|] eqn:E; [|discriminate].
      apply leg_nonneg in E. cbn [res_bind] in H. apply IH in H. lia.
    + cbn [res_bind] in H. apply IH in H. lia.
Qed.

Lemma for_each_grows (body : Z -> list Monitor.Activity -> Res Z) l :
  (forall log d d', body d log = Ok d' -> d <= d') ->
  forall d d', Monitor.for_each body l d = Ok d' -> d <= d'.
Proof.
  intros Hbody. induction l as [|log l IH]; intros d d' H; simpl in H.
  - injection H as <-. lia.
  - destruct (body d log) as [x|] eqn:E; [|discriminate].
    simpl in H. apply Hbody in E. apply IH in H. lia.
Qed.

(** X19. The two distance averages of a report are never negative. *)
Theorem report_distances_nonnegative (m : Monitor.t) (rep : Monitor.Report) :
  Monitor.report m = Ok rep ->
  (0 <= Monitor.driver_total_distance rep)%Q /\
  (0 <= Monitor.driver_ride_distance rep)%Q.
Proof.
  unfold Monitor.report.
  destruct (Monitor._average_wait_time m) as [wt|]; [|discriminate].
  destruct (Monitor._average_total_distance m) as [td|] eqn:Et;
    [|discriminate].
  destruct (Monitor._average_ride_distance m) as [rd|] eqn:Er;
    [|discriminate].
  intros [= <-]. simpl.
  unfold Monitor._average_total_distance in Et.
  unfold Monitor._average_ride_distance in Er.
  destruct (Monitor.for_each Monitor.total_scan _ 0) as [x|] eqn:Ex;
    [|discriminate].
  destruct (Monitor.for_each Monitor.ride_scan _ 0) as [y|] eqn:Ey;
    [|discriminate].
  apply (for_each_grows _ _ total_scan_grows) in Ex.
  apply (for_each_grows _ _ ride_scan_grows) in Ey.
  cbn [res_bind] in Et, Er.
  split;
    [exact (float_true_div_nonneg _ _ _ Ex Et)
    |exact (float_true_div_nonneg _ _ _ Ey Er)].
Qed.

Lemma report_distances_nonnegative_witness :
  exists rep,
    Monitor.report reference_monitor = Ok rep /\
    (0 <= Monitor.driver_total_distance rep)%Q.
Proof.
  destruct (Monitor.report reference_monitor) as [rep|x] eqn:E;
    [|vm_compute in E; discriminate E].
  exists rep. split; [reflexivity|].
  exact (proj1 (report_distances_nonnegative reference_monitor rep E)).
Defined.

(** ** A simulation without riders *)

Lemma add_driver_request ties e q :
  is_driver_request e -> Forall is_driver_request q ->
  Forall is_driver_request (PriorityQueue.add ties e q) /\
  length (PriorityQueue.add ties e q) = S (length q).
Proof.
  intros He. induction 1 as [|x q Hx Hq IH]; simpl.
  - split; [repeat constructor; exact He | reflexivity].
  - destruct (match ties with
              | PriorityQueue.FIFO => Event_lt e x
              | PriorityQueue.LIFO => Event_le e x
              end); simpl.
    + split; [repeat constructor; assumption | reflexivity].
    + destruct IH as [IH1 IH2]. split; [constructor; assumption | lia].
Qed.

Lemma add_all_driver_requests ties reqs : forall q,
  Forall is_driver_request q ->
  Forall is_driver_request (add_all ties (driver_requests reqs) q) /\
  length (add_all ties (driver_requests reqs) q)
  = (length reqs + length q)%nat.
Proof.
  induction reqs as [|[t d] reqs IH]; intros q Hq; simpl.
  - split; [exact Hq | reflexivity].
  - destruct (add_driver_request ties (DriverRequest t d) q I Hq) as [H1 H2].
    destruct (IH _ H1) as [H3 H4]. unfold add_all in *.
    split; [exact H3 | rewrite H4, H2; lia].
Qed.

Lemma DriverRequest_do_no_rider t d w :
  Dispatcher._riders (dispatcher w) = [] ->
  exists w',
    DriverRequest_do t d w = (Ok [], w') /\
    Dispatcher._riders (dispatcher w') = [] /\
    Monitor.rider_log (monitor w') = Monitor.rider_log (monitor w).
Proof.
  intros Hq. unfold DriverRequest_do, request_rider. unfold_world.
  rewrite Hq. destruct (negb _); simpl; rewrite ?Hq;
    eexists; (split; [reflexivity|]); simpl;
    (split; [first [reflexivity | exact Hq] | reflexivity]).
Qed.

Lemma loop_driver_requests ties fuel : forall q w,
  Forall is_driver_request q ->
  (length q <= fuel)%nat ->
  Dispatcher._riders (dispatcher w) = [] ->
  exists w',
    loop ties fuel q w = Some (Ok tt, w') /\
    Monitor.rider_log (monitor w') = Monitor.rider_log (monitor w).
Proof.
  induction fuel as [|fuel IH]; intros q w Hq Hlen Hw.
  - destruct q; [|simpl in Hlen; lia]. exists w. split; reflexivity.
  - destruct q as [|e q]; [exists w; split; reflexivity|].
    inversion Hq as [|e' q' He Hq']; subst e' q'.
    destruct e as [| t d | | |]; try contradiction.
    destruct (DriverRequest_do_no_rider t d w Hw) as (w1 & E & Hw1 & Hlog).
    simpl. rewrite E. simpl.
    destruct (IH q w1 Hq' ltac:(simpl in Hlen; lia) Hw1) as (w' & El & Hlog').
    exists w'. split; [exact El | congruence].
Qed.

(** X20. A simulation in which only drivers ask cannot report: on initial
    events that are all DriverRequests (none at all included), run from a
    state without waiting riders and without rider logs, the loop ends
    after one iteration per event, no event spawns another, and
    [Simulation.run] raises ZeroDivisionError from the average wait
    time. *)
Theorem run_without_riders_faults (ties : PriorityQueue.Ties)
    (reqs : list (Z * nat)) (w : World) :
  Dispatcher._riders (dispatcher w) = [] ->
  Monitor.rider_log (monitor w) = ∅ ->
  exists w',
    run ties (length reqs) (driver_requests reqs) w
    = Some (Raise ZeroDivisionError, w').
Proof.
  intros Hq Hlog. unfold run.
  destruct (add_all_driver_requests ties reqs PriorityQueue.init)
    as [Hall Hlen]; [constructor|].
  destruct (loop_driver_requests ties (length reqs) _ w Hall
              ltac:(rewrite Hlen; simpl; lia) Hq) as (w' & -> & Hlog').
  exists w'. f_equal. f_equal.
  unfold Monitor.report, Monitor._average_wait_time, Monitor.values. simpl.
  rewrite Hlog', Hlog, map_to_list_empty. reflexivity.
Qed.

Lemma run_without_riders_faults_witness :
  exists w',
    run PriorityQueue.FIFO 2 [DriverRequest 3 0; DriverRequest 1 1%nat]
      (new_simulation r1 d1)
    = Some (Raise ZeroDivisionError, w').
Proof.
  exact (run_without_riders_faults PriorityQueue.FIFO [(3, O); (1, 1%nat)]
           (new_simulation r1 d1) eq_refl eq_refl).
Defined.

(** ** Picking up and dropping off a waiting rider *)

(** X21. A Pickup of a Waiting rider by a driver that has a pending
    destination succeeds when the travel time from there to the rider's
    destination, [int(distance / speed)], is computed: the driver arrives
    at the pending destination and leaves at once, busy, for the rider's
    destination; both pickups are logged (the driver's first, at the place
    of arrival); the rider becomes Satisfied; and the one event returned
    is the Dropoff, due after that travel time.  Other riders and drivers
    and the dispatcher are untouched. *)
Theorem pickup_of_waiting_rider (t : Z) (rider driver : nat) (w : World)
    (here : Location) (time : Z) :
  Rider.status (riders w rider) = WAITING ->
  Driver._destination (drivers w driver) = Some here ->
  int_true_div (manhattan_distance here (Rider.destination (riders w rider)))
    (Driver._speed (drivers w driver)) = Ok time ->
  exists w',
    Pickup_do t rider driver w = (Ok [Dropoff (t + time) rider driver], w') /\
    riders w' rider = Rider.set_status SATISFIED (riders w rider) /\
    (forall r', r' <> rider -> riders w' r' = riders w r') /\
    drivers w' driver
    = {| Driver.id := Driver.id (drivers w driver);
         Driver.location := Some here;
         Driver._speed := Driver._speed (drivers w driver);
         Driver.is_idle := false;
         Driver._destination := Some (Rider.destination (riders w rider)) |} /\
    (forall d', d' <> driver -> drivers w' d' = drivers w d') /\
    dispatcher w' = dispatcher w /\
    monitor w'
    = Monitor.notify t Monitor.RIDER Monitor.PICKUP
        (Rider.id (riders w rider)) (Some (Rider.origin (riders w rider)))
        (Monitor.notify t Monitor.DRIVER Monitor.PICKUP
           (Driver.id (drivers w driver)) (Some here) (monitor w)).
Proof.
  intros Hst Hdest Htime.
  rewrite (Pickup_do_steps t rider driver w _ _ _ _
             eq_refl eq_refl eq_refl eq_refl).
  rewrite bool_decide_eq_true_2 by exact Hst.
  unfold call. simpl. rewrite !fn_lookup_insert, !Hdest.
  unfold Driver.get_travel_time. simpl. rewrite Htime. simpl.
  eexists. split; [reflexivity|]. simpl.
  rewrite !fn_lookup_insert.
  split; [reflexivity|].
  split; [intros r' Hne; apply fn_lookup_insert_ne; congruence|].
  split; [reflexivity|].
  split; [|split; reflexivity].
  intros d' Hne. rewrite !fn_lookup_insert_ne by congruence. reflexivity.
Qed.

Lemma pickup_of_waiting_rider_witness :
  fst (Pickup_do 3 0 0 (set_drivers
                          (fun _ => fst (Driver.start_drive d1 (Rider.origin r1)))
                          (new_simulation r1 d1)))
  = Ok [Dropoff 3 0 0].
Proof.
  destruct (pickup_of_waiting_rider 3 0 0
              (set_drivers
                 (fun _ => fst (Driver.start_drive d1 (Rider.origin r1)))
                 (new_simulation r1 d1))
              (Rider.origin r1) 0 eq_refl eq_refl)
    as (w' & E & _); [vm_compute; reflexivity|].
  rewrite E. reflexivity.
Defined.

(** X22. [Pickup.do] raises exactly when the rider is Waiting and the
    travel time of the ride cannot be computed: AttributeError when the
    driver has no pending destination, and otherwise what
    [int(distance / speed)] from the pending destination to the rider's
    destination raises, ZeroDivisionError for speed 0 and OverflowError for
    a quotient too large for a float.  It then stops half-way: the rider's
    pickup is already logged and the driver is already flagged busy, but
    the rider is still Waiting and no Dropoff exists. *)
Theorem pickup_raises_half_way (t : Z) (rider driver : nat) (w : World) :
  (forall x,
     fst (Pickup_do t rider driver w) = Raise x <->
     Rider.status (riders w rider) = WAITING /\
     match Driver._destination (drivers w driver) with
     | None => x = AttributeError
     | Some here =>
         int_true_div
           (manhattan_distance here (Rider.destination (riders w rider)))
           (Driver._speed (drivers w driver)) = Raise x
     end) /\
  (forall x, fst (Pickup_do t rider driver w) = Raise x ->
     (x = AttributeError /\ Driver._destination (drivers w driver) = None) \/
     (x = ZeroDivisionError /\ Driver._speed (drivers w driver) = 0) \/
     (x = OverflowError /\ Driver._speed (drivers w driver) <> 0)) /\
  (forall x, fst (Pickup_do t rider driver w) = Raise x ->
     let w' := snd (Pickup_do t rider driver w) in
     Rider.status (riders w' rider) = WAITING /\
     Driver.is_idle (drivers w' driver) = false /\
     Monitor.rider_log (monitor w') !! Rider.id (riders w rider)
     = Some (default [] (Monitor.rider_log (monitor w)
                           !! Rider.id (riders w rider))
             ++ [Monitor.Activity_init t Monitor.PICKUP
                   (Rider.id (riders w rider))
                   (Some (Rider.origin (riders w rider)))])).
Proof.
  assert (Hiff : forall x,
     fst (Pickup_do t rider driver w) = Raise x <->
     Rider.status (riders w rider) = WAITING /\
     match Driver._destination (drivers w driver) with
     | None => x = AttributeError
     | Some here =>
         int_true_div
           (manhattan_distance here (Rider.destination (riders w rider)))
           (Driver._speed (drivers w driver)) = Raise x
     end).
  { intros x.
    rewrite (Pickup_do_steps t rider driver w _ _ _ _
               eq_refl eq_refl eq_refl eq_refl).
    destruct (bool_decide (Rider.status (riders w rider) = WAITING)) eqn:E.
    - apply bool_decide_eq_true_1 in E.
      unfold call. simpl. rewrite !fn_lookup_insert.
      unfold Driver.get_travel_time. simpl.
      destruct (Driver._destination (drivers w driver)) as [here|]; simpl.
      + destruct (int_true_div _ _) as [time|x']; simpl.
        * split; [discriminate | intros [_ H]; discriminate H].
        * split; [intros [= <-]; split; [exact E | reflexivity]
                 |intros [_ [= <-]]; reflexivity].
      + split; [intros [= <-]; split; [exact E | reflexivity]
               |intros [_ ->]; reflexivity].
    - apply bool_decide_eq_false_1 in E. simpl.
      split; [discriminate | intros [Hw _]; contradiction]. }
  split; [exact Hiff|]. split.
  - intros x Hx. apply Hiff in Hx as [_ Hx].
    destruct (Driver._destination (drivers w driver)) as [here|].
    + right. destruct (int_true_div_raises _ _ _ Hx) as [[-> H]|[-> H]];
        [left | right]; (split; [reflexivity | exact H]).
    + left. split; [exact Hx | reflexivity].
  - intros x Hx. pose proof (proj1 (proj1 (Hiff x) Hx)) as E. revert Hx.
    rewrite (Pickup_do_steps t rider driver w _ _ _ _
               eq_refl eq_refl eq_refl eq_refl).
    rewrite bool_decide_eq_true_2 by exact E.
    unfold call. simpl. rewrite !fn_lookup_insert.
    destruct (Driver.get_travel_time _ _) as [time|x']; simpl;
      [discriminate|].
    intros _. rewrite fn_lookup_insert. simpl.
    split; [exact E|]. split; [reflexivity|].
    apply (notify_lookup t Monitor.RIDER).
Qed.

Lemma rider_log_notify_driver t d i loc m :
  Monitor.rider_log (Monitor.notify t Monitor.DRIVER d i loc m)
  = Monitor.rider_log m.
Proof. reflexivity. Qed.

Lemma rider_log_notify_rider t d i loc m :
  Monitor.rider_log (Monitor.notify t Monitor.RIDER d i loc m) !! i
  = Some (default [] (Monitor.rider_log m !! i)
          ++ [Monitor.Activity_init t d i loc]).
Proof. exact (notify_lookup t Monitor.RIDER d i loc m). Qed.

Opaque Monitor.notify.

(** X23. A ride runs to its end.  Under the conditions of a successful
    Pickup (rider Waiting, driver with a pending destination, travel time
    of the ride computed), the Pickup followed by the Dropoff it returns
    leaves the driver idle, without destination, at the rider's
    destination, and the rider Satisfied; the rider's log gains the pickup
    at the origin and the drop-off at the destination, in this order; the
    dispatcher is as before, and the driver asks for a new rider at the
    time of the drop-off. *)
Theorem ride_runs_to_its_end (t : Z) (rider driver : nat) (w : World)
    (here : Location) (time : Z) :
  Rider.status (riders w rider) = WAITING ->
  Driver._destination (drivers w driver) = Some here ->
  int_true_div (manhattan_distance here (Rider.destination (riders w rider)))
    (Driver._speed (drivers w driver)) = Ok time ->
  exists w1 w2,
    Pickup_do t rider driver w = (Ok [Dropoff (t + time) rider driver], w1) /\
    Dropoff_do (t + time) rider driver w1
    = (Ok [DriverRequest (t + time) driver], w2) /\
    drivers w2 driver
    = {| Driver.id := Driver.id (drivers w driver);
         Driver.location := Some (Rider.destination (riders w rider));
         Driver._speed := Driver._speed (drivers w driver);
         Driver.is_idle := true;
         Driver._destination := None |} /\
    riders w2 rider = Rider.set_status SATISFIED (riders w rider) /\
    Monitor.rider_log (monitor w2) !! Rider.id (riders w rider)
    = Some (default [] (Monitor.rider_log (monitor w)
                          !! Rider.id (riders w rider))
            ++ [Monitor.Activity_init t Monitor.PICKUP
                  (Rider.id (riders w rider))
                  (Some (Rider.origin (riders w rider)));
                Monitor.Activity_init (t + time) Monitor.DROPOFF
                  (Rider.id (riders w rider))
                  (Some (Rider.destination (riders w rider)))]) /\
    dispatcher w2 = dispatcher w.
Proof.
  intros Hst Hdest Htime.
  rewrite (Pickup_do_steps t rider driver w _ _ _ _
             eq_refl eq_refl eq_refl eq_refl).
  rewrite bool_decide_eq_true_2 by exact Hst.
  unfold call. simpl. rewrite !fn_lookup_insert, !Hdest.
  unfold Driver.get_travel_time. simpl. rewrite Htime. simpl.
  eexists _, _. split; [reflexivity|].
  unfold Dropoff_do. unfold_world. rewrite !fn_lookup_insert. simpl.
  split; [reflexivity|]. simpl. rewrite !fn_lookup_insert. simpl.
  split; [reflexivity|]. split; [reflexivity|]. split; [|reflexivity].
  rewrite ?rider_log_notify_driver, rider_log_notify_rider.
  rewrite ?rider_log_notify_driver, rider_log_notify_rider. simpl.
  rewrite <- app_assoc. reflexivity.
Qed.

Transparent Monitor.notify.

Lemma ride_runs_to_its_end_witness :
  exists w1 w2,
    Pickup_do 3 0 0 (set_drivers
                       (fun _ => fst (Driver.start_drive d1 (Rider.origin r1)))
                       (new_simulation r1 d1))
    = (Ok [Dropoff (3 + 0) 0 0], w1) /\
    Dropoff_do (3 + 0) 0 0 w1 = (Ok [DriverRequest (3 + 0) 0], w2) /\
    Driver.location (drivers w2 0) = Some (Location.Location 3 4).
Proof.
  destruct (ride_runs_to_its_end 3 0 0
              (set_drivers
                 (fun _ => fst (Driver.start_drive d1 (Rider.origin r1)))
                 (new_simulation r1 d1))
              (Rider.origin r1) 0 eq_refl eq_refl)
    as (w1 & w2 & E1 & E2 & Hd & _); [vm_compute; reflexivity|].
  exists w1, w2. split; [exact E1|]. split; [exact E2|].
  rewrite Hd. reflexivity.
Defined.

(** ** A rider who asks first *)

(** X24. A rider who asks while no driver is registered and nobody waits
    is put on the waitlist, with only the Cancellation scheduled; the next
    DriverRequest, from a driver with a location from which the travel
    time to the rider's origin, [int(distance / speed)], is computed,
    registers that driver, takes the rider off the waitlist and returns
    exactly the Pickup of this rider by this driver, due after that travel
    time.  The driver then has the rider's origin as pending destination
    and its idle flag is as it was. *)
Theorem waiting_rider_is_served (t t' : Z) (rider driver : nat) (w : World)
    (here : Location) (time : Z) :
  Dispatcher._drivers (dispatcher w) = [] ->
  Dispatcher._riders (dispatcher w) = [] ->
  Driver.location (drivers w driver) = Some here ->
  int_true_div (manhattan_distance here (Rider.origin (riders w rider)))
    (Driver._speed (drivers w driver)) = Ok time ->
  exists w1 w2,
    RiderRequest_do t rider w
    = (Ok [Cancellation (t + Rider.patience (riders w rider)) rider], w1) /\
    DriverRequest_do t' driver w1
    = (Ok [Pickup (t' + time) rider driver], w2) /\
    Dispatcher._drivers (dispatcher w2) = [driver] /\
    Dispatcher._riders (dispatcher w2) = [] /\
    Driver._destination (drivers w2 driver)
    = Some (Rider.origin (riders w rider)) /\
    Driver.is_idle (drivers w2 driver) = Driver.is_idle (drivers w driver) /\
    Driver.location (drivers w2 driver) = Some here.
Proof.
  intros Hd Hq Hloc Htime.
  unfold RiderRequest_do, request_driver. unfold_world.
  rewrite Hd, Hq. simpl.
  do 2 eexists. split; [reflexivity|].
  split.
  - unfold DriverRequest_do, request_rider. unfold_world.
    unfold Driver.get_travel_time. simpl.
    rewrite Hloc. simpl. rewrite Htime. simpl.
    reflexivity.
  - simpl. rewrite fn_lookup_insert. simpl.
    repeat split; first [reflexivity | exact Hloc].
Qed.

Lemma waiting_rider_is_served_witness :
  exists w1 w2,
    RiderRequest_do 2 0 (new_simulation r1 d1) = (Ok [Cancellation 6 0], w1) /\
    DriverRequest_do 3 0 w1 = (Ok [Pickup (3 + 0) 0 0], w2).
Proof.
  destruct (waiting_rider_is_served 2 3 0 0 (new_simulation r1 d1)
              (Location.Location 0 4) 0 eq_refl eq_refl eq_refl)
    as (w1 & w2 & E1 & E2 & _); [vm_compute; reflexivity|].
  exists w1, w2. split; [exact E1 | exact E2].
Defined.

(** ** When events return *)

Lemma manhattan_distance_near a b :
  near a -> near b -> Z.abs (manhattan_distance a b) < 2 ^ 1023.
Proof.
  unfold near, manhattan_distance. intros [Har Hac] [Hbr Hbc].
  assert (H : 2 ^ 1023 = 4 * 2 ^ 1021) by (vm_compute; reflexivity).
  rewrite H. set (T := 2 ^ 1021) in *. lia.
Qed.

Lemma get_travel_time_returns self dest :
  (exists here, Driver.location self = Some here /\ near here) ->
  Driver._speed self <> 0 -> near dest ->
  exists t, Driver.get_travel_time self dest = Ok t.
Proof.
  intros (here & Hloc & Hhere) Hspeed Hdest.
  unfold Driver.get_travel_time. rewrite Hloc. simpl.
  apply int_true_div_in_range;
    [exact Hspeed | apply manhattan_distance_near; assumption].
Qed.

Lemma scan_drivers_returns w origin ds :
  (forall d, sound_driver (drivers w d)) -> near origin ->
  forall min_time driver,
    exists r, scan_drivers w origin ds min_time driver = Ok r.
Proof.
  intros Hsound Ho. induction ds as [|d ds IH]; intros min_time driver; simpl.
  - eexists. reflexivity.
  - destruct (Hsound d) as (Hloc & Hspeed & _).
    destruct (get_travel_time_returns (drivers w d) origin Hloc Hspeed Ho)
      as (t & ->).
    simpl. destruct (Driver.is_idle (drivers w d)); [|apply IH].
    destruct (min_time =? -1); [apply IH|].
    destruct (min_time >? t); apply IH.
Qed.

(** X25. Events return when drivers and riders are sound: if every driver
    has a location and a speed other than 0, every coordinate of a driver's
    location or pending destination and of a rider's origin or destination
    is below 2^1021 in magnitude and, for a Pickup, its driver has a
    pending destination, [do] raises nothing.  Cancellation and Dropoff
    return in every world. *)
Theorem events_return_when_drivers_are_sound (e : Event) (w : World) :
  (match e with
   | Cancellation _ _ | Dropoff _ _ _ => True
   | _ => (forall d, sound_driver (drivers w d)) /\
          (forall r, sound_rider (riders w r)) /\
          pickup_ready e w
   end) ->
  exists events w', do e w = (Ok events, w').
Proof.
  destruct e as [t r|t d|t r|t r d|t r d]; simpl.
  - intros (Hsound & Hriders & _).
    unfold RiderRequest_do, request_driver. unfold_world.
    destruct (bool_decide _); simpl; [do 2 eexists; reflexivity|].
    match goal with
    | |- context [scan_drivers ?w1 ?o ?ds ?mt ?dr] =>
        destruct (scan_drivers_returns w1 o ds Hsound
                    (proj1 (Hriders r)) mt dr) as (res & ->)
    end.
    simpl. destruct res as [d|]; simpl; [|do 2 eexists; reflexivity].
    destruct (Hsound d) as (Hloc & Hspeed & _).
    destruct (get_travel_time_returns
                (Driver.set_destination (Some (Rider.origin (riders w r)))
                   (drivers w d))
                (Rider.origin (riders w r))
                Hloc Hspeed (proj1 (Hriders r))) as (time & ->).
    simpl. do 2 eexists. reflexivity.
  - intros (Hsound & Hriders & _).
    unfold DriverRequest_do. unfold_world.
    match goal with
    | |- context [request_rider d ?w1] =>
        pose proof (proj1 (proj1 (proj2 (dispatcher_methods_frame d w1))))
          as Hd;
        pose proof (proj1 (proj2 (proj1 (proj2
                      (dispatcher_methods_frame d w1))))) as Hr;
        destruct (request_rider d w1) as [[[r|]|x] w2] eqn:E;
        simpl in Hd, Hr
    end; simpl.
    + destruct (Hsound d) as (Hloc & Hspeed & _).
      destruct (get_travel_time_returns
                  (Driver.set_destination (Some (Rider.origin (riders w2 r)))
                     (drivers w2 d))
                  (Rider.origin (riders w2 r))) as (time & ->);
        [rewrite Hd; exact Hloc | rewrite Hd; exact Hspeed
        |rewrite Hr; exact (proj1 (Hriders r)) |].
      simpl. do 2 eexists. reflexivity.
    + do 2 eexists. reflexivity.
    + exfalso. unfold request_rider in E.
      destruct (negb _) in E; simpl in E;
        destruct (Dispatcher._riders _) in E; discriminate E.
  - intros _.
    rewrite (Cancellation_do_steps t r w _ _ _ eq_refl eq_refl eq_refl).
    destruct (bool_decide _); do 2 eexists; reflexivity.
  - intros _. unfold Dropoff_do. unfold_world. do 2 eexists. reflexivity.
  - intros (Hsound & Hriders & [here Hdest]).
    rewrite (Pickup_do_steps t r d w _ _ _ _ eq_refl eq_refl eq_refl eq_refl).
    destruct (bool_decide _); [|do 2 eexists; reflexivity].
    unfold call. simpl. rewrite !fn_lookup_insert, !Hdest.
    destruct (Hsound d) as (_ & Hspeed & Hnear).
    match goal with
    | |- context [Driver.get_travel_time ?self ?dest] =>
        destruct (get_travel_time_returns self dest) as (time & ->)
    end.
    + exists here. split; [reflexivity | exact (Hnear here Hdest)].
    + exact Hspeed.
    + exact (proj2 (Hriders r)).
    + simpl. do 2 eexists. reflexivity.
Qed.

Lemma events_return_when_drivers_are_sound_witness :
  exists events w',
    do (RiderRequest 10 0) three_drivers = (Ok events, w').
Proof.
  apply (events_return_when_drivers_are_sound (RiderRequest 10 0)
           three_drivers).
  split; [|split; [|exact I]].
  - intros [|[|d]]; simpl;
      (split; [eexists; split; [reflexivity | split; reflexivity]|]);
      (split; [discriminate | intros l H; discriminate H]).
  - intros r. split; split; reflexivity.
Defined.
